(** * scene_lab: the reflection-driven FlatBuffer editor and the world editor

    A shallow embedding of
      - [include/world_editor/flatbuffer_editor.h] (class [FlatbufferEditor]),
      - [src/world_editor.cpp] (class [WorldEditor]),
    together with the properties stated about them.

    The header declares the out-of-line members of [FlatbufferEditor]
    without their bodies (they are defined in [flatbuffer_editor.cpp]); the
    definitions that stand for them say so in their documentation and follow
    the specification of the repository and the comments of the header. *)

From Stdlib Require Import ZArith String Ascii List Bool Lia.
From Stdlib Require Import Decimal DecimalString DecimalPos DecimalZ.
From Stdlib Require Import Floats.PrimFloat.
From Stdlib Require Import OrdersEx Sorted.
From stdpp Require Import gmap strings list.

Local Open Scope Z_scope.

(* ===================================================================== *)
(** * Part I. [WorldEditor::ModifyTransformBasedOnInput]                  *)
(* ===================================================================== *)

Module WorldEditor.

(** Single precision arithmetic, as far as [world_editor.cpp] uses it.  The
    frame property below does not depend on how the operations round, so they
    are kept behind an interface. *)
Class FloatOps (F : Type) := {
  f_zero : F;                 (* 0 / 0.0f *)
  f_one : F;                  (* 1 / 1.0f *)
  f_0_001 : F;                (* the literal 0.001 *)
  f_add : F -> F -> F;
  f_sub : F -> F -> F;
  f_mul : F -> F -> F;
  f_div : F -> F -> F;
  f_neg : F -> F;
  f_lt : F -> F -> bool;      (* a < b *)
  f_ne : F -> F -> bool;      (* a != b *)
  f_sqrt : F -> F
}.

Section WithFloats.
Context {F : Type} `{FloatOps F}.

(** [mathfu::vec3]. *)
Record vec3 := mk_vec3 { vx : F; vy : F; vz : F }.

(** The FlatBuffers struct [Vec3] with its accessors [x()], [y()], [z()]. *)
Record Vec3 := mk_Vec3 { x : F; y : F; z : F }.

Definition vec3_add (a b : vec3) : vec3 :=
  mk_vec3 (f_add (vx a) (vx b)) (f_add (vy a) (vy b)) (f_add (vz a) (vz b)).
Definition vec3_sub (a b : vec3) : vec3 :=
  mk_vec3 (f_sub (vx a) (vx b)) (f_sub (vy a) (vy b)) (f_sub (vz a) (vz b)).
Definition vec3_neg (a : vec3) : vec3 :=
  mk_vec3 (f_neg (vx a)) (f_neg (vy a)) (f_neg (vz a)).
Definition vec3_scale (a : vec3) (s : F) : vec3 :=
  mk_vec3 (f_mul (vx a) s) (f_mul (vy a) s) (f_mul (vz a) s).
Definition vec3_div (a : vec3) (s : F) : vec3 :=
  mk_vec3 (f_div (vx a) s) (f_div (vy a) s) (f_div (vz a) s).
Definition DotProduct (a b : vec3) : F :=
  f_add (f_add (f_mul (vx a) (vx b)) (f_mul (vy a) (vy b)))
        (f_mul (vz a) (vz b)).

(** [mathfu]'s [Normalized()]: the vector scaled by the inverse of its
    length. *)
Definition Normalized (a : vec3) : vec3 :=
  vec3_scale a (f_div f_one (f_sqrt (DotProduct a a))).

(** [fplbase]'s [LoadVec3]: a FlatBuffers [Vec3] read into a [mathfu::vec3]. *)
Definition LoadVec3 (v : Vec3) : vec3 := mk_vec3 (x v) (y v) (z v).

(** The three struct fields of the [TransformDef] table the function touches. *)
Record TransformDef := mk_TransformDef {
  position : Vec3;
  scale : Vec3;
  orientation : Vec3
}.

Inductive InputMode := kMoving | kEditing | kDragging.

Definition InputMode_eqb (a b : InputMode) : bool :=
  match a, b with
  | kMoving, kMoving | kEditing, kEditing | kDragging, kDragging => true
  | _, _ => false
  end.

(** The keys [ModifyTransformBasedOnInput] and [PreciseMovement] ask about. *)
Inductive Key :=
| FPLK_i | FPLK_k | FPLK_j | FPLK_l | FPLK_p | FPLK_SEMICOLON
| FPLK_u | FPLK_o | FPLK_y | FPLK_h | FPLK_n | FPLK_m
| FPLK_EQUALS | FPLK_MINUS | FPLK_0 | FPLK_LSHIFT | FPLK_RSHIFT.

(** [EditorController]: what it answers during one frame. *)
Record EditorController := {
  KeyIsDown : Key -> bool;
  (* GetMouseWorldRay(camera, window_size, &start, &end): result, start, end *)
  GetMouseWorldRay : bool * vec3 * vec3
}.

(** The read accessors of [WorldEditorConfig] used here. *)
Record WorldEditorConfig := {
  precise_movement_scale : F;
  object_movement_speed : F;
  object_angular_speed : F;
  object_scale_speed : F
}.

(** The members of [WorldEditor] the function reads. *)
Record WorldEditor := {
  config_ : WorldEditorConfig;
  controller_ : EditorController;
  camera_up : vec3;                 (* camera_->up() *)
  input_mode_ : InputMode;
  horizontal_forward_ : vec3;
  horizontal_right_ : vec3;
  drag_point_ : vec3;
  drag_offset_ : vec3
}.

Definition PreciseMovement (w : WorldEditor) : bool :=
  KeyIsDown (controller_ w) FPLK_LSHIFT || KeyIsDown (controller_ w) FPLK_RSHIFT.

Definition GlobalFromHorizontal (w : WorldEditor) (forward right up : F) : vec3 :=
  vec3_add (vec3_add (vec3_scale (horizontal_forward_ w) forward)
                     (vec3_scale (horizontal_right_ w) right))
           (vec3_scale (camera_up w) up).

(** [IntersectRayToPlane]: [Some p] when the function returns [true] having
    stored [p] through [intersection_point], [None] when it returns [false]
    (and has stored nothing). *)
Definition IntersectRayToPlane
    (ray_origin ray_direction point_on_plane plane_normal : vec3) : option vec3 :=
  let ray_origin_to_plane := vec3_sub ray_origin point_on_plane in
  let distance_from_ray_origin_to_plane :=
    DotProduct ray_origin_to_plane plane_normal in
  let length_ratio := DotProduct ray_direction (vec3_neg plane_normal) in
  if f_lt distance_from_ray_origin_to_plane f_0_001 then
    Some ray_origin_to_plane
  else if f_lt length_ratio f_0_001 then
    None
  else
    Some (vec3_add ray_origin
            (vec3_div
               (vec3_scale
                  (vec3_scale ray_direction distance_from_ray_origin_to_plane)
                  f_one)
               length_ratio)).

(** A store through one of the [mutable_*()] pointers of the transform. *)
Inductive Write :=
| W_position (v : Vec3)
| W_orientation (v : Vec3)
| W_scale (v : Vec3).

Definition apply_write (t : TransformDef) (wr : Write) : TransformDef :=
  match wr with
  | W_position v => mk_TransformDef v (scale t) (orientation t)
  | W_orientation v => mk_TransformDef (position t) (scale t) v
  | W_scale v => mk_TransformDef (position t) v (orientation t)
  end.

Definition apply_writes (t : TransformDef) (ws : list Write) : TransformDef :=
  fold_left apply_write ws t.

(** [x += s] when the key is down. *)
Definition add_if (w : WorldEditor) (k : Key) (acc s : F) : F :=
  if KeyIsDown (controller_ w) k then f_add acc s else acc.
Definition sub_if (w : WorldEditor) (k : Key) (acc s : F) : F :=
  if KeyIsDown (controller_ w) k then f_sub acc s else acc.

(** [ModifyTransformBasedOnInput]: the returned flag and the stores it made
    into [*transform], in program order. *)
Definition ModifyTransformBasedOnInput_writes
    (w : WorldEditor) (transform : TransformDef) : bool * list Write :=
  if InputMode_eqb (input_mode_ w) kDragging then
    let '(_, start, end_) := GetMouseWorldRay (controller_ w) in
    let mouse_ray_origin := start in
    let mouse_ray_dir := Normalized (vec3_sub end_ start) in
    match IntersectRayToPlane mouse_ray_origin mouse_ray_dir (drag_point_ w)
                              (mk_vec3 f_zero f_zero f_one) with
    | Some intersect =>
        let new_pos := vec3_add intersect (drag_offset_ w) in
        (true, [W_position (mk_Vec3 (vx new_pos) (vy new_pos) (vz new_pos))])
    | None => (false, [])
    end
  else
    let fwd_speed := f_zero in
    let right_speed := f_zero in
    let up_speed := f_zero in
    let roll_speed := f_zero in
    let pitch_speed := f_zero in
    let yaw_speed := f_zero in
    let scale_speed := f_one in
    let movement_scale :=
      if PreciseMovement w then precise_movement_scale (config_ w) else f_one in
    let move_speed := f_mul movement_scale (object_movement_speed (config_ w)) in
    let angular_speed :=
      f_mul movement_scale (object_angular_speed (config_ w)) in
    let fwd_speed := add_if w FPLK_i fwd_speed move_speed in
    let fwd_speed := sub_if w FPLK_k fwd_speed move_speed in
    let right_speed := sub_if w FPLK_j right_speed move_speed in
    let right_speed := add_if w FPLK_l right_speed move_speed in
    let up_speed := add_if w FPLK_p up_speed move_speed in
    let up_speed := sub_if w FPLK_SEMICOLON up_speed move_speed in
    let roll_speed := add_if w FPLK_u roll_speed angular_speed in
    let roll_speed := sub_if w FPLK_o roll_speed angular_speed in
    let pitch_speed := add_if w FPLK_y pitch_speed angular_speed in
    let pitch_speed := sub_if w FPLK_h pitch_speed angular_speed in
    let yaw_speed := add_if w FPLK_n yaw_speed angular_speed in
    let yaw_speed := sub_if w FPLK_m yaw_speed angular_speed in
    let scale_speed :=
      if KeyIsDown (controller_ w) FPLK_EQUALS then object_scale_speed (config_ w)
      else if KeyIsDown (controller_ w) FPLK_MINUS
           then f_div f_one (object_scale_speed (config_ w))
           else scale_speed in
    let position_ :=
      vec3_add (LoadVec3 (position transform))
               (GlobalFromHorizontal w fwd_speed right_speed up_speed) in
    let orientation_ := orientation transform in
    let orientation_ :=
      mk_Vec3 (f_add (x orientation_) pitch_speed)
              (f_add (y orientation_) roll_speed)
              (f_add (z orientation_) yaw_speed) in
    let scale_ := scale transform in
    let '(scale_, scale_speed) :=
      if KeyIsDown (controller_ w) FPLK_0
      then (mk_Vec3 f_one f_one f_one, f_zero)
      else (mk_Vec3 (f_mul (x scale_) scale_speed)
                    (f_mul (y scale_) scale_speed)
                    (f_mul (z scale_) scale_speed), scale_speed) in
    if f_ne fwd_speed f_zero || f_ne right_speed f_zero || f_ne up_speed f_zero
       || f_ne yaw_speed f_zero || f_ne roll_speed f_zero
       || f_ne pitch_speed f_zero || f_ne scale_speed f_one
    then
      (true, [W_position (mk_Vec3 (vx position_) (vy position_) (vz position_));
              W_orientation orientation_;
              W_scale scale_])
    else (false, []).

(** The call as the caller sees it: the flag and the transform afterwards. *)
Definition ModifyTransformBasedOnInput
    (w : WorldEditor) (transform : TransformDef) : bool * TransformDef :=
  let '(r, ws) := ModifyTransformBasedOnInput_writes w transform in
  (r, apply_writes transform ws).

End WithFloats.

Arguments vec3 F : clear implicits.
Arguments Vec3 F : clear implicits.
Arguments TransformDef F : clear implicits.
Arguments WorldEditor F : clear implicits.
Arguments EditorController F : clear implicits.
Arguments WorldEditorConfig F : clear implicits.

(** Binary floating point of the kernel as an instance, to run the function
    on samples.  It is binary64 where the code computes in [float]; the
    theorems hold for any [FloatOps] and do not depend on it. *)
#[global] Instance PrimFloatOps : FloatOps PrimFloat.float := {|
  f_zero := 0%float;
  f_one := 1%float;
  f_0_001 := 0x1.0624dd2f1a9fcp-10%float;
  f_add := PrimFloat.add;
  f_sub := PrimFloat.sub;
  f_mul := PrimFloat.mul;
  f_div := PrimFloat.div;
  f_neg := PrimFloat.opp;
  f_lt := PrimFloat.ltb;
  f_ne := fun a b => negb (PrimFloat.eqb a b);
  f_sqrt := PrimFloat.sqrt
|}.

Definition no_keys : Key -> bool := fun _ => false.
Definition only_key (k0 : Key) : Key -> bool :=
  fun k => match k0, k with
           | FPLK_i, FPLK_i | FPLK_0, FPLK_0 | FPLK_LSHIFT, FPLK_LSHIFT => true
           | _, _ => false
           end.

Definition v0 : vec3 float := mk_vec3 0%float 0%float 0%float.

Definition sample_editor (mode : InputMode) (keys : Key -> bool) :
    WorldEditor float :=
  {| config_ := {| precise_movement_scale := 0.25%float;
                   object_movement_speed := 0.5%float;
                   object_angular_speed := 0.125%float;
                   object_scale_speed := 1.5%float |};
     controller_ := {| KeyIsDown := keys;
                       GetMouseWorldRay :=
                         (true, mk_vec3 0%float 0%float 4%float,
                                mk_vec3 0%float 0%float 5%float) |};
     camera_up := mk_vec3 0%float 0%float 1%float;
     input_mode_ := mode;
     horizontal_forward_ := mk_vec3 0%float 1%float 0%float;
     horizontal_right_ := mk_vec3 1%float 0%float 0%float;
     drag_point_ := v0;
     drag_offset_ := v0 |}.

Definition sample_transform : TransformDef float :=
  {| position := mk_Vec3 1%float 2%float 3%float;
     scale := mk_Vec3 1%float 1%float 1%float;
     orientation := mk_Vec3 0%float 0%float 0%float |}.

End WorldEditor.


(* ===================================================================== *)
(** * Part I-b. [WorldEditor]: selecting, highlighting, cycling, saving   *)
(* ===================================================================== *)

Module WorldEditorScene.
Import WorldEditor.

(** The floating point of [HighlightEntity]: the tint [2] of a selected
    entity, and the tint handed down to a child, [1 + ((tint - 1) * .8)],
    which C++ evaluates in double precision and converts back to [float] at
    the call. *)
Class TintOps (F : Type) := {
  f_two : F;
  child_tint : F -> F
}.

(** An entity of the entity manager, and a reference to one; the
    default-constructed [EntityRef()] is [None]. *)
Definition Entity : Type := nat.
Definition EntityRef : Type := option Entity.

Inductive SelectionOption :=
| SelectionOption_Unspecified
| SelectionOption_Any
| SelectionOption_CycleOnly
| SelectionOption_PointerOnly
| SelectionOption_Other.     (* any value the editor does not name *)

(** [MetaData]: the members the editor reads and writes. *)
Record MetaData := mk_MetaData {
  entity_id : string;
  prototype : string;
  source_file : string
}.

Inductive EditorEventAction :=
| EditorEventAction_Enter
| EditorEventAction_Exit
| EditorEventAction_EntityCreated
| EditorEventAction_EntityUpdated
| EditorEventAction_EntityDeleted.

(** What the editor sends out: log lines, broadcast events and the calls of
    [SaveFile], each with the result the call gave.  Texts and paths are
    the strings as the editor builds them (the callee is handed their
    [c_str()]). *)
Inductive Output :=
| LogInfo (msg : string)
| LogError (msg : string)
| BroadcastEvent (action : EditorEventAction) (entity : EntityRef)
| SaveFile_binary (filename : string) (data : list Byte.byte) (ok : bool)
| SaveFile_text (filename : string) (text : string) (ok : bool).

(** How a loop of the editor can end. *)
Inductive Ran (A : Type) :=
| Returned (a : A)
| OutOfFuel       (* still running when the fuel was used up *)
| BeforeBegin     (* it applied [--] to the iterator at [begin()] *)
| AtEnd.          (* it called [ToReference()] on the iterator at [end()] *)
Arguments Returned {A} a.
Arguments OutOfFuel {A}.
Arguments BeforeBegin {A}.
Arguments AtEnd {A}.

(** Whether cycling may select an entity with this option. *)
Definition cycle_allowed (o : SelectionOption) : bool :=
  match o with
  | SelectionOption_Unspecified | SelectionOption_Any
  | SelectionOption_CycleOnly => true
  | _ => false
  end.

Section WithFloats.
Context {F : Type} `{FloatOps F} `{TintOps F}.

(** [mathfu::vec4]. *)
Record vec4 := mk_vec4 { v4x : F; v4y : F; v4z : F; v4w : F }.

(** The entity manager as far as the editor looks into it: the entities in
    the order [begin()] to [end()] gives them, and the component data of
    each entity that has the component: the [tint] of [RenderMeshData], the
    owners of the [children] of [TransformData], [MetaData], and the
    [selection_option] of [EditOptionsData]. *)
Record EntityManager := mk_EntityManager {
  entities : list Entity;
  render_tint : gmap Entity vec4;
  transform_children : gmap Entity (list EntityRef);
  meta : gmap Entity MetaData;
  selection_option : gmap Entity SelectionOption
}.

Definition set_render_tint (v : gmap Entity vec4) (em : EntityManager) :
    EntityManager :=
  mk_EntityManager (entities em) v (transform_children em) (meta em)
    (selection_option em).

(** [EntityRef::IsValid]: the reference is to an entity the manager holds. *)
Definition IsValid (em : EntityManager) (entity : EntityRef) : bool :=
  match entity with
  | Some x => bool_decide (x ∈ entities em)
  | None => false
  end.

(** [render_data->tint = vec4(tint, tint, tint, 1)] when the entity has
    [RenderMeshData]. *)
Definition set_tint (x : Entity) (tint : F) (em : EntityManager) : EntityManager :=
  match render_tint em !! x with
  | Some _ =>
      set_render_tint (<[x := mk_vec4 tint tint tint f_one]> (render_tint em)) em
  | None => em
  end.

(** The loop over the children of [HighlightEntity], given the call made
    for each child. *)
Definition highlight_children
    (highlight : EntityManager -> EntityRef -> option EntityManager) :
    list EntityRef -> EntityManager -> option EntityManager :=
  fix go (children : list EntityRef) (em : EntityManager) :=
    match children with
    | [] => Some em
    | child :: rest =>
        match highlight em child with
        | Some em => go rest em
        | None => None
        end
    end.

(** [HighlightEntity]; [fuel] bounds the depth of the calls, and [None]
    tells that it was not enough. *)
Fixpoint HighlightEntity (fuel : nat) (em : EntityManager) (entity : EntityRef)
    (tint : F) : option EntityManager :=
  match fuel with
  | O => None
  | S fuel =>
      if negb (IsValid em entity) then Some em
      else
        match entity with
        | None => Some em
        | Some x =>
            let em := set_tint x tint em in
            match transform_children em !! x with
            | Some children =>
                highlight_children
                  (fun em child => HighlightEntity fuel em child (child_tint tint))
                  children em
            | None => Some em
            end
        end
  end.

(** The collaborators behind the saving and loading functions; each stands
    for a call the editor makes and gives what the call returns.  An output
    vector or string the editor passes in is empty before the call unless
    said otherwise.
    - [SerializeEntity] and [SerializeEntityList] of the entity factory: the
      result and what is left in the output vector;
    - [SaveFile] and [LoadFile] of the file system ([LoadFile] is given what
      the destination string holds before the call);
    - [Parse] of a [flatbuffers::Parser], given the schema text, the include
      paths and the name of the schema file: the result and [error_];
    - [GenerateText], given the schema text parsed and the buffer;
    - [GetSchema]: whether the pointer it returns is non-null. *)
Class Services := {
  FileSystem : Type;
  SerializeEntity : EntityManager -> Entity -> bool * list Byte.byte;
  SerializeEntityList : list (list Byte.byte) -> bool * list Byte.byte;
  SaveFile : FileSystem -> string -> list Byte.byte -> bool * FileSystem;
  SaveFile_string : FileSystem -> string -> string -> bool * FileSystem;
  LoadFile : FileSystem -> string -> string -> bool * string;
  Parse : string -> list string -> string -> bool * string;
  GenerateText : string -> list Byte.byte -> string;
  GetSchema : string -> bool
}.
Context `{Services}.

(** The entries of [WorldEditorConfig] for the schema files. *)
Record SchemaConfig := {
  schema_file_text : string;
  schema_file_binary : string;
  schema_include_paths : list string
}.

(** The members of [WorldEditor] that selecting, cycling and saving use.
    The cycler is an iterator into the entities: a position from [0]
    ([begin()]) to their number ([end()]).  [event_manager_] tells whether
    the pointer is set. *)
Record WorldEditor := mk_WorldEditor {
  config_ : SchemaConfig;
  entity_manager_ : EntityManager;
  selected_entity_ : EntityRef;
  entity_cycler_ : nat;
  event_manager_ : bool;
  schema_data_ : string;
  schema_text_ : string;
  file_system : FileSystem;
  output : list Output
}.

Definition set_entity_manager_ (v : EntityManager) (w : WorldEditor) : WorldEditor :=
  mk_WorldEditor (config_ w) v (selected_entity_ w) (entity_cycler_ w)
    (event_manager_ w) (schema_data_ w) (schema_text_ w) (file_system w)
    (output w).
Definition set_selected_entity_ (v : EntityRef) (w : WorldEditor) : WorldEditor :=
  mk_WorldEditor (config_ w) (entity_manager_ w) v (entity_cycler_ w)
    (event_manager_ w) (schema_data_ w) (schema_text_ w) (file_system w)
    (output w).
Definition set_entity_cycler_ (v : nat) (w : WorldEditor) : WorldEditor :=
  mk_WorldEditor (config_ w) (entity_manager_ w) (selected_entity_ w) v
    (event_manager_ w) (schema_data_ w) (schema_text_ w) (file_system w)
    (output w).
Definition set_schema_data_ (v : string) (w : WorldEditor) : WorldEditor :=
  mk_WorldEditor (config_ w) (entity_manager_ w) (selected_entity_ w)
    (entity_cycler_ w) (event_manager_ w) v (schema_text_ w) (file_system w)
    (output w).
Definition set_schema_text_ (v : string) (w : WorldEditor) : WorldEditor :=
  mk_WorldEditor (config_ w) (entity_manager_ w) (selected_entity_ w)
    (entity_cycler_ w) (event_manager_ w) (schema_data_ w) v (file_system w)
    (output w).
Definition set_file_system (v : FileSystem) (w : WorldEditor) : WorldEditor :=
  mk_WorldEditor (config_ w) (entity_manager_ w) (selected_entity_ w)
    (entity_cycler_ w) (event_manager_ w) (schema_data_ w) (schema_text_ w) v
    (output w).
(** One more line of output. *)
Definition emit (o : Output) (w : WorldEditor) : WorldEditor :=
  mk_WorldEditor (config_ w) (entity_manager_ w) (selected_entity_ w)
    (entity_cycler_ w) (event_manager_ w) (schema_data_ w) (schema_text_ w)
    (file_system w) (output w ++ [o]).

(** [SelectEntity]. *)
Definition SelectEntity (fuel : nat) (entity_ref : EntityRef) (w : WorldEditor) :
    option WorldEditor :=
  w1 ← (if IsValid (entity_manager_ w) entity_ref then
          let w :=
            match entity_ref ≫= (fun x => meta (entity_manager_ w) !! x) with
            | Some data =>
                emit (LogInfo ("Highlighting entity '" +:+ entity_id data
                               +:+ "' with prototype '" +:+ prototype data
                               +:+ "'")) w
            | None => w
            end in
          em ← HighlightEntity fuel (entity_manager_ w) entity_ref f_two;
          Some (set_entity_manager_ em w)
        else Some w);
  w2 ← (if IsValid (entity_manager_ w1) (selected_entity_ w1)
           && negb (bool_decide (selected_entity_ w1 = entity_ref))
        then
          em ← HighlightEntity fuel (entity_manager_ w1) (selected_entity_ w1) f_one;
          Some (set_entity_manager_ em w1)
        else Some w1);
  Some (set_selected_entity_ entity_ref w2).

Definition NotifyEntityCreated (entity : EntityRef) (w : WorldEditor) : WorldEditor :=
  if event_manager_ w
  then emit (BroadcastEvent EditorEventAction_EntityCreated entity) w else w.

Definition NotifyEntityUpdated (entity : EntityRef) (w : WorldEditor) : WorldEditor :=
  if event_manager_ w
  then emit (BroadcastEvent EditorEventAction_EntityUpdated entity) w else w.

Definition NotifyEntityDeleted (entity : EntityRef) (w : WorldEditor) : WorldEditor :=
  if event_manager_ w
  then emit (BroadcastEvent EditorEventAction_EntityDeleted entity) w else w.

(** [Deactivate]. *)
Definition Deactivate (fuel : nat) (w : WorldEditor) : option WorldEditor :=
  let w :=
    if event_manager_ w
    then emit (BroadcastEvent EditorEventAction_Exit None) w else w in
  w ← SelectEntity fuel None w;
  Some (set_entity_cycler_ (length (entities (entity_manager_ w))) w).

(** The body of the [do ... while] loop of [AdvanceFrame] that cycles through
    the entities.  [right] and [left] are [KeyWentDown(FPLK_RIGHTBRACKET)]
    and [KeyWentDown(FPLK_LEFTBRACKET)], which do not change during the
    frame. *)
Definition cycle_body (fuel : nat) (right left : bool)
    (w : WorldEditor) (entity_changed : bool) : Ran (WorldEditor * bool) :=
  let end_ := length (entities (entity_manager_ w)) in
  let '(w, entity_changed) :=
    if right then
      let c := entity_cycler_ w in
      let c := if negb (c =? end_)%nat then S c else c in
      let c := if (c =? end_)%nat then O else c in
      (set_entity_cycler_ c w, true)
    else (w, entity_changed) in
  let moved_back :=
    if left then
      let c := entity_cycler_ w in
      let c := if (c =? 0)%nat then end_ else c in
      match c with
      | O => BeforeBegin                      (* [--] at [begin()] *)
      | S c => Returned (set_entity_cycler_ c w, true)
      end
    else Returned (w, entity_changed) in
  match moved_back with
  | Returned (w, entity_changed) =>
      if entity_changed then
        match entities (entity_manager_ w) !! entity_cycler_ w with
        | None => AtEnd                       (* [ToReference()] at [end()] *)
        | Some x =>
            let selected :=
              match selection_option (entity_manager_ w) !! x with
              | Some o =>
                  if cycle_allowed o then SelectEntity fuel (Some x) w
                  else Some w
              | None => Some w
              end in
            match selected with
            | Some w => Returned (w, entity_changed)
            | None => OutOfFuel
            end
        end
      else Returned (w, entity_changed)
  | OutOfFuel => OutOfFuel
  | BeforeBegin => BeforeBegin
  | AtEnd => AtEnd
  end.

(** The loop: the body, and again as long as
    [entity_changed && entity_cycler_->ToReference() != selected_entity_]. *)
Fixpoint cycle_entities (rounds fuel : nat) (right left : bool)
    (w : WorldEditor) (entity_changed : bool) : Ran (WorldEditor * bool) :=
  match rounds with
  | O => OutOfFuel
  | S rounds =>
      match cycle_body fuel right left w entity_changed with
      | Returned (w, entity_changed) =>
          if entity_changed then
            match entities (entity_manager_ w) !! entity_cycler_ w with
            | None => AtEnd
            | Some x =>
                if negb (bool_decide (Some x = selected_entity_ w))
                then cycle_entities rounds fuel right left w entity_changed
                else Returned (w, entity_changed)
            end
          else Returned (w, entity_changed)
      | OutOfFuel => OutOfFuel
      | BeforeBegin => BeforeBegin
      | AtEnd => AtEnd
      end
  end.

(** Whether a click may select an entity with this option. *)
Definition click_allowed (o : SelectionOption) : bool :=
  match o with
  | SelectionOption_Unspecified | SelectionOption_Any
  | SelectionOption_PointerOnly => true
  | _ => false
  end.

(** [EntityRef::ToIterator] of a valid reference: the position of the entity
    among the entities. *)
Definition ToIterator (em : EntityManager) (x : Entity) : nat :=
  match list_find (fun e => e = x) (entities em) with
  | Some (i, _) => i
  | None => length (entities em)
  end.

(** The part of [AdvanceFrame] that selects with the pointer, from
    [entity_changed = false] to the end of [if (entity_changed)].
    [interact_down] is [ButtonWentDown(config_->interact_button())] and
    [result] is what [RaycastSingle] returns (it also stores the point hit
    in [drag_point_]); the result is the editor and [start_dragging]. *)
Definition pointer_select (fuel : nat) (input_mode_ : InputMode)
    (interact_down : bool) (result : EntityRef) (w : WorldEditor) :
    Ran (WorldEditor * bool) :=
  let entity_changed := false in
  let '(w, entity_changed) :=
    if interact_down then
      if IsValid (entity_manager_ w) result then
        match result with
        | Some x =>
            (set_entity_cycler_ (ToIterator (entity_manager_ w) x) w, true)
        | None => (w, entity_changed)
        end
      else (w, entity_changed)
    else (w, entity_changed) in
  let start_dragging := false in
  if entity_changed then
    match entities (entity_manager_ w) !! entity_cycler_ w with
    | None => AtEnd
    | Some x =>
        let entity_ref := Some x in
        if InputMode_eqb input_mode_ kEditing
           && bool_decide (entity_ref = selected_entity_ w)
        then Returned (w, true)
        else
          let selected :=
            match selection_option (entity_manager_ w) !! x with
            | Some o =>
                if click_allowed o then SelectEntity fuel (Some x) w
                else Some w
            | None => Some w
            end in
          match selected with
          | Some w => Returned (w, start_dragging)
          | None => OutOfFuel
          end
    end
  else Returned (w, start_dragging).

(** [std::set<std::string>::insert] on the set kept as its ascending
    sequence. *)
Fixpoint set_insert (s : string) (l : list string) : list string :=
  match l with
  | [] => [s]
  | x :: rest =>
      match String_as_OT.compare s x with
      | Lt => s :: l
      | Eq => l
      | Gt => x :: set_insert s rest
      end
  end.

(** The entities a file takes: those whose [MetaData] names it as their
    source file, in the order of the entity manager; each gives the vector
    [SerializeEntity] leaves, whatever its result. *)
Definition entities_serialized_for (filename : string) (em : EntityManager) :
    list (list Byte.byte) :=
  omap (fun entity =>
          match meta em !! entity with
          | Some editor_data =>
              if String.eqb (source_file editor_data) filename
              then Some (SerializeEntity em entity).2
              else None
          | None => None
          end) (entities em).

(** [SaveEntitiesInFile]. *)
Definition SaveEntitiesInFile (filename : string) (w : WorldEditor) : WorldEditor :=
  if String.eqb filename "" then
    emit (LogInfo "Skipping saving entities to blank filename.") w
  else
    let w := emit (LogInfo ("Saving entities in file: '" +:+ filename +:+ "'")) w in
    let entities_serialized :=
      entities_serialized_for filename (entity_manager_ w) in
    let '(listed, entity_list) := SerializeEntityList entities_serialized in
    if negb listed then emit (LogError "Couldn't serialize entity list") w
    else
      let '(saved, fs) :=
        SaveFile (file_system w) (filename +:+ ".bin") entity_list in
      let w := set_file_system fs w in
      let w := emit (SaveFile_binary (filename +:+ ".bin") entity_list saved) w in
      let w :=
        if saved then emit (LogInfo "Save (binary) successful.") w
        else emit (LogInfo "Save (binary) failed.") w in
      if negb (String.eqb (schema_text_ w) "") then
        let '(parsed, error_) :=
          Parse (schema_text_ w) (schema_include_paths (config_ w))
                (schema_file_text (config_ w)) in
        if parsed then
          let json := GenerateText (schema_text_ w) entity_list in
          let '(saved, fs) :=
            SaveFile_string (file_system w) (filename +:+ ".json") json in
          let w := set_file_system fs w in
          let w := emit (SaveFile_text (filename +:+ ".json") json saved) w in
          if saved then emit (LogInfo "Save (JSON) successful") w
          else emit (LogInfo "Save (JSON) failed.") w
        else emit (LogInfo ("Couldn't parse schema file: " +:+ error_)) w
      else emit (LogInfo "No text schema loaded, can't save JSON file.") w.

(** The file names [SaveWorld] collects: the source file of every entity
    that has [MetaData], inserted into the set.  [SaveWorld] goes through
    the data of [MetaComponent]; the set does not depend on the order, and
    the entities are taken here in the order of the entity manager. *)
Definition source_files (em : EntityManager) : list string :=
  fold_left
    (fun filenames entity =>
       match meta em !! entity with
       | Some data => set_insert (source_file data) filenames
       | None => filenames
       end) (entities em) [].

(** [SaveWorld]. *)
Definition SaveWorld (w : WorldEditor) : WorldEditor :=
  fold_left (fun w filename => SaveEntitiesInFile filename w)
            (source_files (entity_manager_ w)) w.

(** [LoadSchemaFiles]. *)
Definition LoadSchemaFiles (w : WorldEditor) : WorldEditor :=
  let schema_file_text := schema_file_text (config_ w) in
  let schema_file_binary := schema_file_binary (config_ w) in
  let '(loaded, data) :=
    LoadFile (file_system w) schema_file_binary (schema_data_ w) in
  let w := set_schema_data_ data w in
  if negb loaded then
    emit (LogInfo ("Failed to open binary schema file: " +:+ schema_file_binary)) w
  else
    let w :=
      if GetSchema (schema_data_ w)
      then emit (LogInfo ("WorldEditor: Binary schema " +:+ schema_file_binary
                          +:+ " loaded")) w
      else w in
    let '(loaded, text) :=
      LoadFile (file_system w) schema_file_text (schema_text_ w) in
    let w := set_schema_text_ text w in
    if loaded
    then emit (LogInfo ("WorldEditor: Text schema " +:+ schema_file_text
                        +:+ " loaded")) w
    else w.

End WithFloats.

Arguments vec4 F : clear implicits.
Arguments EntityManager F : clear implicits.
Arguments Services F : clear implicits.
Arguments WorldEditor F {_}.

(** Binary floating point of the kernel as an instance: the tint
    [1 + ((tint - 1) * .8)] in double precision, without the conversion
    back to [float] that the call makes.  It serves to run the functions on
    the sample scene; the theorems hold for any [TintOps]. *)
#[global] Instance PrimFloatTint : TintOps PrimFloat.float := {|
  f_two := 2%float;
  child_tint := fun tint =>
    PrimFloat.add 1%float
      (PrimFloat.mul (PrimFloat.sub tint 1%float) 0x1.999999999999ap-1%float)
|}.

(** A file system that keeps what is saved, and collaborators that always
    succeed, to run the functions. *)
Definition sample_files : Type := list (string * (list Byte.byte + string)).

Definition sample_load (fs : sample_files) (path dest : string) : bool * string :=
  match find (fun entry => String.eqb entry.1 path) fs with
  | Some (_, inr text) => (true, text)
  | _ => (false, dest)
  end.

#[global] Instance sample_services : Services PrimFloat.float := {|
  FileSystem := sample_files;
  SerializeEntity := fun _ entity => (true, [Byte.x01]);
  SerializeEntityList := fun l => (true, concat l);
  SaveFile := fun fs path data => (true, (path, inl data) :: fs);
  SaveFile_string := fun fs path text => (true, (path, inr text) :: fs);
  LoadFile := sample_load;
  Parse := fun _ _ _ => (true, EmptyString);
  GenerateText := fun _ _ => "{}";
  GetSchema := fun _ => true
|}.

Definition white : vec4 PrimFloat.float :=
  mk_vec4 1%float 1%float 1%float 1%float.

(** A scene of four entities: a tree (0) with one child, its leaf (1), a
    rock (2), and a marker (3) that has neither mesh nor source file.  The
    leaf may be selected with the pointer only. *)
Definition sample_scene : EntityManager PrimFloat.float :=
  {| entities := [0; 1; 2; 3]%nat;
     render_tint := {[ 0%nat := white; 1%nat := white; 2%nat := white ]};
     transform_children := {[ 0%nat := [Some 1%nat]; 1%nat := [] ]};
     meta := {[ 0%nat := mk_MetaData "tree" "TreeDef" "world";
                1%nat := mk_MetaData "leaf" "LeafDef" "world";
                2%nat := mk_MetaData "rock" "RockDef" "extras";
                3%nat := mk_MetaData "" "MarkerDef" "" ]};
     selection_option := {[ 0%nat := SelectionOption_Any;
                            1%nat := SelectionOption_PointerOnly;
                            2%nat := SelectionOption_CycleOnly ]} |}.

(** The same scene with every entity out of reach of cycling. *)
Definition locked_scene : EntityManager PrimFloat.float :=
  {| entities := entities sample_scene;
     render_tint := render_tint sample_scene;
     transform_children := transform_children sample_scene;
     meta := meta sample_scene;
     selection_option := {[ 0%nat := SelectionOption_PointerOnly;
                            1%nat := SelectionOption_PointerOnly ]} |}.

Definition sample_rank (entity : Entity) : nat :=
  match entity with O => 1%nat | _ => O end.

Definition sample_world (em : EntityManager PrimFloat.float)
    (selected : EntityRef) : WorldEditor PrimFloat.float :=
  {| config_ := {| schema_file_text := "schema.fbs";
                   schema_file_binary := "schema.bfbs";
                   schema_include_paths := [] |};
     entity_manager_ := em;
     selected_entity_ := selected;
     entity_cycler_ := O;
     event_manager_ := true;
     schema_data_ := "";
     schema_text_ := "";
     file_system := [];
     output := [] |}.

End WorldEditorScene.


(* ===================================================================== *)
(** * Part II. [FlatbufferEditor]                                          *)
(* ===================================================================== *)

Module FlatbufferEditor.

(** ** Static utility functions of the field codec *)

(** Nesting of angle brackets in a text: opening brackets minus closing
    ones. *)
Fixpoint nesting (s : string) : Z :=
  match s with
  | EmptyString => 0
  | String c rest =>
      (if Ascii.eqb c "<" then 1 else if Ascii.eqb c ">" then -1 else 0)
      + nesting rest
  end.

(** No opening bracket occurs in the text. *)
Fixpoint no_open (s : string) : bool :=
  match s with
  | EmptyString => true
  | String c rest => negb (Ascii.eqb c "<") && no_open rest
  end.

(** A balanced span: brackets inside it are matched among themselves, that
    is, no prefix closes more than it opens and the whole closes all. *)
Definition balanced (s : string) : Prop :=
  nesting s = 0 /\ forall p q, s = p +:+ q -> 0 <= nesting p.

(** Modelled from the spec: first half of the missing body of
    [ExtractInlineStructDef]: the text behind the first ['<'], when there is
    one. *)
Fixpoint after_first_open (str : string) : option string :=
  match str with
  | EmptyString => None
  | String c rest =>
      if Ascii.eqb c "<" then Some rest else after_first_open rest
  end.

(** Modelled from the spec: second half of the missing body of
    [ExtractInlineStructDef]: the scan with [nest_level] brackets open inside
    the span, which stops at the ['>'] met at level 0. *)
Fixpoint until_matching_close (nest_level : nat) (str : string) : option string :=
  match str with
  | EmptyString => None
  | String c rest =>
      if Ascii.eqb c "<" then
        option_map (String c) (until_matching_close (S nest_level) rest)
      else if Ascii.eqb c ">" then
        match nest_level with
        | O => Some EmptyString
        | S n => option_map (String c) (until_matching_close n rest)
        end
      else option_map (String c) (until_matching_close nest_level rest)
  end.

(** Modelled from the spec: the body of [ExtractInlineStructDef] (the
    balanced-span primitive of section 4.3, in [flatbuffer_editor.cpp]) is
    missing.  It scans from the first ['<'], tracking nesting depth, and
    returns the text between that bracket and its matching ['>'], or the
    empty string when the brackets do not match. *)
Definition ExtractInlineStructDef (str : string) : string :=
  match after_first_open str with
  | None => EmptyString
  | Some rest =>
      match until_matching_close 0 rest with
      | Some body => body
      | None => EmptyString
      end
  end.

(** Errors of the field codec (sections 4.3 and 7 of the specification). *)
Inductive CodecError :=
| kParseError
| kMalformedStruct
| kFieldCountMismatch
| kInvalidEnumValue.

(** An enum definition of the schema: its type name and the ordered
    name/value table. *)
Record EnumDef := {
  enum_type_name : string;
  enum_values : list (string * Z)
}.

Definition lookup_enum_name (e : EnumDef) (text : string) : option Z :=
  snd <$> List.find (fun nv => String.eqb (fst nv) text) (enum_values e).

Definition lookup_enum_value (e : EnumDef) (v : Z) : option string :=
  fst <$> List.find (fun nv => Z.eqb (snd nv) v) (enum_values e).

(** Modelled from the spec: the integer case of [ToText] (the codec bodies
    are missing): the decimal text of the integer. *)
Definition IntToText (v : Z) : string :=
  DecimalString.NilZero.string_of_int (Z.to_int v).

(** Modelled from the spec: the integer case of [ParseText] (the codec
    bodies are missing): an optional sign followed by decimal digits only; a
    decimal point or an exponent is rejected. *)
Definition ParseIntText (text : string) : option Z :=
  match text with
  | String "+" digits =>
      Z.of_uint <$> DecimalString.NilZero.uint_of_string digits
  | _ => Z.of_int <$> DecimalString.NilZero.int_of_string text
  end.

Definition is_digit (c : ascii) : bool :=
  (48 <=? N_of_ascii c)%N && (N_of_ascii c <=? 57)%N.

Fixpoint all_digits (s : string) : bool :=
  match s with
  | EmptyString => true
  | String c rest => is_digit c && all_digits rest
  end.

(** The grammar of integer text, stated on its own: [[+-]?[0-9]+]. *)
Definition is_integer_text (text : string) : bool :=
  match text with
  | EmptyString => false
  | String c rest =>
      if Ascii.eqb c "+" || Ascii.eqb c "-"
      then negb (String.eqb rest EmptyString) && all_digits rest
      else all_digits text
  end.

(** Modelled from the spec: the enum case of [ToText] (the body of
    [GetEnumTypeAndValue] is missing): the symbolic name when the stored
    value maps to one exactly, else the raw integer. *)
Definition EnumToText (e : EnumDef) (v : Z) : string :=
  match lookup_enum_value e v with
  | Some name => name
  | None => IntToText v
  end.

(** Modelled from the spec: the enum case of [ParseText] (the body of
    [GetEnumTypeAndValue] is missing): the text is a symbolic name, matched
    exactly, or a raw integer, else [kInvalidEnumValue]. *)
Definition ParseEnumText (e : EnumDef) (text : string) : Z + CodecError :=
  match lookup_enum_name e text with
  | Some v => inl v
  | None =>
      match ParseIntText text with
      | Some v => inl v
      | None => inr kInvalidEnumValue
      end
  end.

(** ** The class [FlatbufferEditor] (flatbuffer_editor.h) *)

Inductive VisitMode :=
| kCheckEdits      (* Only check if any fields have been modified. *)
| kDrawEditAuto    (* Draw using edit fields that auto-update the FB. *)
| kDrawEditManual  (* Draw using edit fields that manually update the FB. *)
| kDrawReadOnly    (* Draw using label fields, not editable *)
| kCommitEdits.    (* Write out edits to the Flatbuffer. *)

Inductive Button := kNone | kCommit | kRevert.

Definition VisitMode_eqb (a b : VisitMode) : bool :=
  match a, b with
  | kCheckEdits, kCheckEdits | kDrawEditAuto, kDrawEditAuto
  | kDrawEditManual, kDrawEditManual | kDrawReadOnly, kDrawReadOnly
  | kCommitEdits, kCommitEdits => true
  | _, _ => false
  end.

Definition IsDraw (mode : VisitMode) : bool :=
  VisitMode_eqb mode kDrawEditAuto || VisitMode_eqb mode kDrawEditManual
  || VisitMode_eqb mode kDrawReadOnly.

Definition IsDrawEdit (mode : VisitMode) : bool :=
  VisitMode_eqb mode kDrawEditAuto || VisitMode_eqb mode kDrawEditManual.

(** The data members (the colours of the UI left aside). *)
Record FlatbufferEditor := mkEditor {
  edit_fields_ : gmap string string;   (* std::unordered_map of strings *)
  expanded_subtables_ : gset string;   (* table names with expanded view *)
  committed_fields_ : gset string;   (* modified fields that were committed *)
  flatbuffer_ : list Byte.byte;   (* the actual Flatbuffer data *)
  root_id_ : string;   (* the root ID for the UI controls *)
  currently_editing_field_ : string;   (* what field has focus now *)
  force_commit_field_ : string;   (* if set, commit this field next Update *)
  button_pressed_ : Button;   (* what on-screen button was pressed *)
  ui_size_ : Z;
  ui_spacing_ : Z;
  blank_field_width_ : Z;
  keyboard_in_use_ : bool;
  show_types_ : bool;
  expand_all_ : bool;
  config_read_only_ : bool;
  config_auto_commit_ : bool;
  edit_fields_modified_ : bool;   (* have GUI edit fields been modified *)
  flatbuffer_modified_ : bool   (* has the Flatbuffer data been modified *)
}.

(** Assignment to one member. *)
Definition set_edit_fields_ (v : gmap string string) (e : FlatbufferEditor) :
    FlatbufferEditor :=
  mkEditor v (expanded_subtables_ e) (committed_fields_ e) (flatbuffer_ e)
    (root_id_ e) (currently_editing_field_ e) (force_commit_field_ e)
    (button_pressed_ e) (ui_size_ e) (ui_spacing_ e) (blank_field_width_ e)
    (keyboard_in_use_ e) (show_types_ e) (expand_all_ e) (config_read_only_ e)
    (config_auto_commit_ e) (edit_fields_modified_ e) (flatbuffer_modified_ e).
Definition set_expanded_subtables_ (v : gset string) (e : FlatbufferEditor) :
    FlatbufferEditor :=
  mkEditor (edit_fields_ e) v (committed_fields_ e) (flatbuffer_ e)
    (root_id_ e) (currently_editing_field_ e) (force_commit_field_ e)
    (button_pressed_ e) (ui_size_ e) (ui_spacing_ e) (blank_field_width_ e)
    (keyboard_in_use_ e) (show_types_ e) (expand_all_ e) (config_read_only_ e)
    (config_auto_commit_ e) (edit_fields_modified_ e) (flatbuffer_modified_ e).
Definition set_committed_fields_ (v : gset string) (e : FlatbufferEditor) :
    FlatbufferEditor :=
  mkEditor (edit_fields_ e) (expanded_subtables_ e) v (flatbuffer_ e)
    (root_id_ e) (currently_editing_field_ e) (force_commit_field_ e)
    (button_pressed_ e) (ui_size_ e) (ui_spacing_ e) (blank_field_width_ e)
    (keyboard_in_use_ e) (show_types_ e) (expand_all_ e) (config_read_only_ e)
    (config_auto_commit_ e) (edit_fields_modified_ e) (flatbuffer_modified_ e).
Definition set_flatbuffer_ (v : list Byte.byte) (e : FlatbufferEditor) :
    FlatbufferEditor :=
  mkEditor (edit_fields_ e) (expanded_subtables_ e) (committed_fields_ e) v
    (root_id_ e) (currently_editing_field_ e) (force_commit_field_ e)
    (button_pressed_ e) (ui_size_ e) (ui_spacing_ e) (blank_field_width_ e)
    (keyboard_in_use_ e) (show_types_ e) (expand_all_ e) (config_read_only_ e)
    (config_auto_commit_ e) (edit_fields_modified_ e) (flatbuffer_modified_ e).
Definition set_currently_editing_field_ (v : string) (e : FlatbufferEditor) :
    FlatbufferEditor :=
  mkEditor (edit_fields_ e) (expanded_subtables_ e) (committed_fields_ e)
    (flatbuffer_ e) (root_id_ e) v (force_commit_field_ e) (button_pressed_ e)
    (ui_size_ e) (ui_spacing_ e) (blank_field_width_ e) (keyboard_in_use_ e)
    (show_types_ e) (expand_all_ e) (config_read_only_ e)
    (config_auto_commit_ e) (edit_fields_modified_ e) (flatbuffer_modified_ e).
Definition set_force_commit_field_ (v : string) (e : FlatbufferEditor) :
    FlatbufferEditor :=
  mkEditor (edit_fields_ e) (expanded_subtables_ e) (committed_fields_ e)
    (flatbuffer_ e) (root_id_ e) (currently_editing_field_ e) v
    (button_pressed_ e) (ui_size_ e) (ui_spacing_ e) (blank_field_width_ e)
    (keyboard_in_use_ e) (show_types_ e) (expand_all_ e) (config_read_only_ e)
    (config_auto_commit_ e) (edit_fields_modified_ e) (flatbuffer_modified_ e).
Definition set_button_pressed_ (v : Button) (e : FlatbufferEditor) :
    FlatbufferEditor :=
  mkEditor (edit_fields_ e) (expanded_subtables_ e) (committed_fields_ e)
    (flatbuffer_ e) (root_id_ e) (currently_editing_field_ e)
    (force_commit_field_ e) v (ui_size_ e) (ui_spacing_ e)
    (blank_field_width_ e) (keyboard_in_use_ e) (show_types_ e)
    (expand_all_ e) (config_read_only_ e) (config_auto_commit_ e)
    (edit_fields_modified_ e) (flatbuffer_modified_ e).
Definition set_keyboard_in_use_ (v : bool) (e : FlatbufferEditor) :
    FlatbufferEditor :=
  mkEditor (edit_fields_ e) (expanded_subtables_ e) (committed_fields_ e)
    (flatbuffer_ e) (root_id_ e) (currently_editing_field_ e)
    (force_commit_field_ e) (button_pressed_ e) (ui_size_ e) (ui_spacing_ e)
    (blank_field_width_ e) v (show_types_ e) (expand_all_ e)
    (config_read_only_ e) (config_auto_commit_ e) (edit_fields_modified_ e)
    (flatbuffer_modified_ e).
Definition set_edit_fields_modified_ (v : bool) (e : FlatbufferEditor) :
    FlatbufferEditor :=
  mkEditor (edit_fields_ e) (expanded_subtables_ e) (committed_fields_ e)
    (flatbuffer_ e) (root_id_ e) (currently_editing_field_ e)
    (force_commit_field_ e) (button_pressed_ e) (ui_size_ e) (ui_spacing_ e)
    (blank_field_width_ e) (keyboard_in_use_ e) (show_types_ e)
    (expand_all_ e) (config_read_only_ e) (config_auto_commit_ e) v
    (flatbuffer_modified_ e).
Definition set_flatbuffer_modified_ (v : bool) (e : FlatbufferEditor) :
    FlatbufferEditor :=
  mkEditor (edit_fields_ e) (expanded_subtables_ e) (committed_fields_ e)
    (flatbuffer_ e) (root_id_ e) (currently_editing_field_ e)
    (force_commit_field_ e) (button_pressed_ e) (ui_size_ e) (ui_spacing_ e)
    (blank_field_width_ e) (keyboard_in_use_ e) (show_types_ e)
    (expand_all_ e) (config_read_only_ e) (config_auto_commit_ e)
    (edit_fields_modified_ e) v.

(** ** Schema model and the reflected view of the buffer *)

Inductive ScalarKind :=
| KBool
| KInt (signed : bool) (bits : nat)
| KFloat (bits : nat)
| KEnum (e : EnumDef).

(** The type tag of a field (section 9 of the specification); objects of the
    schema are referred to by their index. *)
Inductive FieldType :=
| Scalar (kind : ScalarKind)
| Str
| Struct (obj : nat)
| Table (obj : nat)
| Vector (elem : FieldType)
| Union (obj : nat).

(** What the reflection-driven walk sees of the table stored in the buffer:
    leaf fields (scalars, enums, strings and structs) with the canonical text
    of their current value, and composite fields (nested tables, vectors,
    unions) with the fields below them; a vector element is named by its
    index. *)
#[local] Unset Elimination Schemes.
Inductive Node :=
| Field (name : string) (type : FieldType) (value : string)
| Subtable (name : string) (type : FieldType) (fields : list Node).
#[local] Set Elimination Schemes.

(** The layers below the editor: the FlatBuffers reflection library, which
    reads a table out of a buffer, builds the canonical encoding of a table
    and patches one field of an encoded table, and the field codec.  [Value]
    is a parsed, typed field value.  [ApplyTablePatch] returns the patched
    buffer and whether the whole buffer had to be rebuilt, which invalidates
    every offset into it. *)
Class Reflection := {
  Value : Type;
  reflect : list Byte.byte -> list Node;
  build : list Node -> list Byte.byte;
  ParseText : string -> FieldType -> Value + CodecError;
  ApplyTablePatch : list Byte.byte -> string -> Value -> list Byte.byte * bool
}.

(** What the widget collaborator answers for one control: text the user
    typed into it, whether editing of it was finished, the button pressed
    next to it, and whether the header of a subtable was clicked. *)
Record Widget := {
  typed : option string;
  finished : bool;
  pressed : Button;
  toggled : bool
}.

Definition idle : Widget :=
  {| typed := None; finished := false; pressed := kNone; toggled := false |}.

(** The widget collaborator during one frame: asked with the id of a control,
    the text shown and whether it is editable. *)
Definition UI := string -> string -> bool -> Widget.

Definition no_ui : UI := fun _ _ _ => idle.

(** What a traversal pass does, in order. *)
Inductive Event :=
| EvRoot                                   (* the root table is taken from the buffer *)
| EvVisit (id : string)                    (* a field is reached through the tables in hand *)
| EvPending (id : string)                  (* its entry differs from the canonical text *)
| EvShow (id text : string) (editable : bool)
| EvParseError (id : string) (err : CodecError)
| EvWrite (id : string) (resized : bool).  (* the field was patched *)


Section WithReflection.
Context `{Reflection}.

(** Modelled from the spec: [CopyTable] (body missing) copies the table
    field by field through reflection into a freshly built canonical
    encoding. *)
Definition CopyTable (src : list Byte.byte) : list Byte.byte :=
  build (reflect src).

Definition ClearEditFields (e : FlatbufferEditor) : FlatbufferEditor :=
  set_edit_fields_modified_ false (set_edit_fields_ ∅ e).

(** Modelled from the spec: [ClearFlatbufferModifiedFlag] (body missing)
    resets the modified flag and the list of modified fields, as the comment
    at its declaration says. *)
Definition ClearFlatbufferModifiedFlag (e : FlatbufferEditor) : FlatbufferEditor :=
  set_committed_fields_ ∅ (set_flatbuffer_modified_ false e).

(** [SetFlatbufferData]; a null pointer is [None]. *)
Definition SetFlatbufferData (flatbuffer_data : option (list Byte.byte))
    (e : FlatbufferEditor) : FlatbufferEditor :=
  let e := ClearEditFields e in
  let e := ClearFlatbufferModifiedFlag e in
  match flatbuffer_data with
  | Some src => set_flatbuffer_ (CopyTable src) e
  | None => set_flatbuffer_ [] e
  end.

Definition HasFlatbufferData (e : FlatbufferEditor) : bool :=
  (0 <? length (flatbuffer_ e))%nat.

Definition flatbuffer_modified (e : FlatbufferEditor) : bool :=
  flatbuffer_modified_ e.

(** The inline accessors of the configuration. *)
Definition config_read_only (e : FlatbufferEditor) : bool := config_read_only_ e.
Definition config_auto_commit (e : FlatbufferEditor) : bool :=
  config_auto_commit_ e.
Definition ui_size (e : FlatbufferEditor) : Z := ui_size_ e.
Definition ui_spacing (e : FlatbufferEditor) : Z := ui_spacing_ e.
Definition blank_field_width (e : FlatbufferEditor) : Z := blank_field_width_ e.
Definition show_types (e : FlatbufferEditor) : bool := show_types_ e.
Definition expand_all (e : FlatbufferEditor) : bool := expand_all_ e.
Definition keyboard_in_use (e : FlatbufferEditor) : bool := keyboard_in_use_ e.
Definition set_keyboard_in_use (b : bool) := set_keyboard_in_use_ b.
Definition root_id (e : FlatbufferEditor) : string := root_id_ e.

(** Modelled from the spec: [GetFlatbufferCopy] (body missing) copies the
    data out of the internal buffer using reflection; it fails when the
    editor has no Flatbuffer. *)
Definition GetFlatbufferCopy (e : FlatbufferEditor) : option (list Byte.byte) :=
  if HasFlatbufferData e then Some (CopyTable (flatbuffer_ e)) else None.

(** [Replace(ExportCopy())]: the editor is given its own exported copy; an
    editor without data has nothing to export and stays as it is. *)
Definition reingest_export (e : FlatbufferEditor) : FlatbufferEditor :=
  match GetFlatbufferCopy e with
  | Some copy => SetFlatbufferData (Some copy) e
  | None => e
  end.

(** ** Traversal engine *)

(** The id of a field: the id of the enclosing table and the field name. *)
Definition child_id (id name : string) : string := id +:+ "." +:+ name.

(** The result of visiting: the editor afterwards, what happened, and
    whether the flatbuffer was resized. *)
Definition Visited : Type := FlatbufferEditor * list Event * bool.

(** Modelled from the spec: [VisitField] (body missing), together with the
    leaf cases [VisitFlatbufferScalar], [VisitFlatbufferString] and
    [VisitFlatbufferStruct] of the walk.  [value] is the canonical text of
    the field in the buffer. *)
Definition VisitField (mode : VisitMode) (ui : UI) (name value : string)
    (type : FieldType) (id : string) (e : FlatbufferEditor) : Visited :=
  match mode with
  | kCheckEdits =>
      match edit_fields_ e !! id with
      | Some text =>
          if String.eqb text value then (e, [EvVisit id], false)
          else (e, [EvVisit id; EvPending id], false)
      | None => (e, [EvVisit id], false)
      end
  | kDrawReadOnly =>
      (e, [EvVisit id; EvShow id (default value (edit_fields_ e !! id)) false],
       false)
  | kDrawEditAuto | kDrawEditManual =>
      let shown := default value (edit_fields_ e !! id) in
      let w := ui id shown true in
      let e :=
        match typed w with
        | Some text =>
            set_edit_fields_modified_ true
              (set_edit_fields_ (<[id := text]> (edit_fields_ e)) e)
        | None => e
        end in
      let e :=
        if VisitMode_eqb mode kDrawEditAuto
        then (if finished w then set_force_commit_field_ id e else e)
        else match pressed w with
             | kNone => e
             | b => set_button_pressed_ b e
             end in
      (e, [EvVisit id; EvShow id shown true], false)
  | kCommitEdits =>
      match edit_fields_ e !! id with
      | Some text =>
          if String.eqb text value then (e, [EvVisit id], false)
          else
            match ParseText text type with
            | inl v =>
                let '(buffer, resized) := ApplyTablePatch (flatbuffer_ e) id v in
                let e := set_flatbuffer_ buffer e in
                let e := set_edit_fields_ (delete id (edit_fields_ e)) e in
                let e := set_committed_fields_ ({[ id ]} ∪ committed_fields_ e) e in
                let e := set_flatbuffer_modified_ true e in
                (e, [EvVisit id; EvWrite id resized], resized)
            | inr err => (e, [EvVisit id; EvParseError id err], false)
            end
      | None => (e, [EvVisit id], false)
      end
  end.

(** Modelled from the spec: [VisitSubtable] (body missing).  The flag of the
    result tells whether the walk goes below the subtable: always when
    checking or committing, and when drawing only if the subtable is shown
    expanded. *)
Definition VisitSubtable (mode : VisitMode) (ui : UI) (name : string)
    (id : string) (e : FlatbufferEditor) : FlatbufferEditor * list Event * bool :=
  if IsDraw mode then
    let w := ui id name false in
    let e :=
      if toggled w then
        set_expanded_subtables_
          (if bool_decide (id ∈ expanded_subtables_ e)
           then expanded_subtables_ e ∖ {[ id ]}
           else {[ id ]} ∪ expanded_subtables_ e) e
      else e in
    (e, [EvVisit id; EvShow id name false],
     expand_all_ e || bool_decide (id ∈ expanded_subtables_ e))
  else (e, [EvVisit id], true).

(** Modelled from the spec: the loop over the fields of one table in the
    missing body of [VisitFlatbufferTable]; the walk of the table stops at
    the first field whose visit resized the flatbuffer. *)
Definition visit_fields (visit : Node -> FlatbufferEditor -> Visited) :
    list Node -> FlatbufferEditor -> Visited :=
  fix go (fields : list Node) (e : FlatbufferEditor) : Visited :=
    match fields with
    | [] => (e, [], false)
    | f :: rest =>
        let '(e1, ev1, resized) := visit f e in
        if resized then (e1, ev1, true)
        else let '(e2, ev2, resized) := go rest e1 in (e2, ev1 ++ ev2, resized)
    end.

(** Modelled from the spec: [VisitFlatbufferField] (body missing), the single
    recursive walk shared by the five modes. *)
Fixpoint VisitFlatbufferField (mode : VisitMode) (ui : UI) (id : string)
    (fielddef : Node) (e : FlatbufferEditor) {struct fielddef} : Visited :=
  match fielddef with
  | Field name type value => VisitField mode ui name value type (child_id id name) e
  | Subtable name type fields =>
      let sub_id := child_id id name in
      let '(e0, ev0, below) := VisitSubtable mode ui name sub_id e in
      if below then
        let '(e1, ev1, resized) :=
          visit_fields (VisitFlatbufferField mode ui sub_id) fields e0 in
        (e1, ev0 ++ ev1, resized)
      else (e0, ev0, false)
  end.

(** Modelled from the spec: [VisitFlatbufferTable] (body missing) walks the
    fields of a table. *)
Definition VisitFlatbufferTable (mode : VisitMode) (ui : UI) (id : string)
    (fields : list Node) (e : FlatbufferEditor) : Visited :=
  visit_fields (VisitFlatbufferField mode ui id) fields e.

(** Modelled from the spec: one pass from the root, as the missing bodies of
    [CommitEditsToFlatbuffer], [Update] and [Draw] start it: the root table
    is taken from the buffer as it is now. *)
Definition pass_from_root (mode : VisitMode) (ui : UI) (e : FlatbufferEditor) : Visited :=
  let '(e1, ev, resized) :=
    VisitFlatbufferTable mode ui (root_id_ e) (reflect (flatbuffer_ e)) e in
  (e1, EvRoot :: ev, resized).

(** Modelled from the spec: the loop of the missing body of
    [CommitEditsToFlatbuffer]: commit passes, restarted from the root as long
    as a pass resized the flatbuffer.  The last component tells that a pass
    ran to its end. *)
Fixpoint commit_passes (fuel : nat) (e : FlatbufferEditor) : Visited :=
  match fuel with
  | O => (e, [], false)
  | S fuel =>
      let '(e1, ev1, resized) := pass_from_root kCommitEdits no_ui e in
      if resized then
        let '(e2, ev2, completed) := commit_passes fuel e1 in
        (e2, ev1 ++ ev2, completed)
      else (e1, ev1, true)
  end.

(** Modelled from the spec: [CommitEditsToFlatbuffer] (body missing).  Every
    restart follows a committed edit, whose entry left the edit session, so
    one pass more than there are entries is enough.  Without data the commit
    is a no-op. *)
Definition CommitEditsToFlatbuffer (e : FlatbufferEditor) : Visited :=
  if HasFlatbufferData e
  then commit_passes (S (size (edit_fields_ e))) e
  else (e, [], true).



(** The leaf fields at and below a node, each with its id, its type and the
    canonical text of its value. *)
Fixpoint leaves_of (id : string) (n : Node) : list (string * FieldType * string) :=
  match n with
  | Field name type value => [(child_id id name, type, value)]
  | Subtable name _ fields => List.flat_map (leaves_of (child_id id name)) fields
  end.

Definition leaves (id : string) (fields : list Node) :
    list (string * FieldType * string) :=
  List.flat_map (leaves_of id) fields.

(** The editor with the entry of [A] taken out of the edit session, and a
    pass with the parse errors of [A] left out. *)
Definition without (A : string) (e : FlatbufferEditor) : FlatbufferEditor :=
  set_edit_fields_ (delete A (edit_fields_ e)) e.

Definition drop_errors (A : string) (ev : list Event) : list Event :=
  List.filter
    (fun x => match x with
              | EvParseError id _ => negb (String.eqb id A)
              | _ => true
              end) ev.




(** ** The public interface as operations on one editor *)





End WithReflection.

End FlatbufferEditor.

(* ===================================================================== *)
(** * Part III. A small schema to run the editor on                       *)
(* ===================================================================== *)

(** The table [{ name : string; hp : ubyte; pos : { x : ubyte; y : ubyte } }]
    in a buffer of the form [hp x y name...], where a zero byte inside the
    name is padding that the canonical encoding drops. *)
Module Sample.
Import FlatbufferEditor.

Inductive SampleValue := VInt (z : Z) | VStr (s : string).

Definition ubyte : FieldType := Scalar (KInt false 8).

Definition nonzero (c : Byte.byte) : bool := negb (Byte.eqb c Byte.x00).

Definition text_of_byte (c : Byte.byte) : string :=
  IntToText (Z.of_N (Byte.to_N c)).

Definition byte_of_text (text : string) : Byte.byte :=
  match ParseIntText text with
  | Some z => default Byte.x00 (Byte.of_N (Z.to_N z))
  | None => Byte.x00
  end.

Definition sample_reflect (b : list Byte.byte) : list Node :=
  [ Field "name" Str (string_of_list_byte (List.filter nonzero (drop 3 b)));
    Field "hp" ubyte (text_of_byte (nth 0 b Byte.x00));
    Subtable "pos" (Table 1)
      [ Field "x" ubyte (text_of_byte (nth 1 b Byte.x00));
        Field "y" ubyte (text_of_byte (nth 2 b Byte.x00)) ] ].

Definition sample_build (t : list Node) : list Byte.byte :=
  match t with
  | [ Field _ _ name; Field _ _ hp; Subtable _ _ [ Field _ _ x; Field _ _ y ] ] =>
      byte_of_text hp :: byte_of_text x :: byte_of_text y
        :: list_byte_of_string name
  | _ => []
  end.

Definition sample_parse (text : string) (type : FieldType) : SampleValue + CodecError :=
  match type with
  | Str => inl (VStr text)
  | Scalar (KInt false 8) =>
      match ParseIntText text with
      | Some z => if (0 <=? z) && (z <? 256) then inl (VInt z) else inr kParseError
      | None => inr kParseError
      end
  | _ => inr kParseError
  end.

Definition byte_of_value (v : SampleValue) : Byte.byte :=
  match v with
  | VInt z => default Byte.x00 (Byte.of_N (Z.to_N z))
  | VStr _ => Byte.x00
  end.

(** A one-byte field is patched in place; a name of another length makes the
    whole buffer be rebuilt. *)
Definition sample_patch (b : list Byte.byte) (id : string) (v : SampleValue) :
    list Byte.byte * bool :=
  let hp := nth 0 b Byte.x00 in
  let x := nth 1 b Byte.x00 in
  let y := nth 2 b Byte.x00 in
  let name := drop 3 b in
  if String.eqb id "root.hp" then (byte_of_value v :: x :: y :: name, false)
  else if String.eqb id "root.pos.x" then (hp :: byte_of_value v :: y :: name, false)
  else if String.eqb id "root.pos.y" then (hp :: x :: byte_of_value v :: name, false)
  else if String.eqb id "root.name" then
    match v with
    | VStr s =>
        (hp :: x :: y :: list_byte_of_string s,
         negb (length (list_byte_of_string s) =? length name)%nat)
    | VInt _ => (b, false)
    end
  else (b, false).

#[global] Instance sample_reflection : Reflection := {|
  Value := SampleValue;
  reflect := sample_reflect;
  build := sample_build;
  ParseText := sample_parse;
  ApplyTablePatch := sample_patch
|}.

Definition new_editor : FlatbufferEditor :=
  {| edit_fields_ := ∅; expanded_subtables_ := ∅; committed_fields_ := ∅;
     flatbuffer_ := []; root_id_ := "root";
     currently_editing_field_ := ""; force_commit_field_ := "";
     button_pressed_ := kNone; ui_size_ := 20; ui_spacing_ := 4;
     blank_field_width_ := 10; keyboard_in_use_ := false;
     show_types_ := false; expand_all_ := false;
     config_read_only_ := false; config_auto_commit_ := false;
     edit_fields_modified_ := false; flatbuffer_modified_ := false |}.

(** hp = 7, pos = (1, 2), name = "ab" with one byte of padding. *)
Definition raw : list Byte.byte :=
  [Byte.x07; Byte.x01; Byte.x02; Byte.x61; Byte.x00; Byte.x62].

Definition loaded : FlatbufferEditor := SetFlatbufferData (Some raw) new_editor.

(** The user typed into three controls. *)
Definition edited (hp name x : string) : FlatbufferEditor :=
  set_edit_fields_
    (<["root.hp" := hp]> (<["root.name" := name]> (<["root.pos.x" := x]> ∅)))
    loaded.

End Sample.

(** A table whose field [val] is typed by the buffer, as the variant of a
    union is: a ubyte while [tag] is zero, a string otherwise.  The buffer
    is the tag followed by the value; a write of the tag rebuilds it. *)
Module Tagged.
Import FlatbufferEditor Sample.








End Tagged.

(* ===================================================================== *)
(** * Part IV. Properties                                                  *)
(* ===================================================================== *)

(** ** The world editor *)

Section WorldEditorFacts.
Import WorldEditor.
Context {F : Type} `{FloatOps F}.

(** C10.  Whenever [ModifyTransformBasedOnInput] returns [false] it has made
    no store into the transform (neither position, orientation nor scale),
    and the transform is what it was; a store is made only on executions
    that return [true]. *)
Theorem ModifyTransformBasedOnInput_false_frame
    (w : WorldEditor F) (transform : TransformDef F) :
  (ModifyTransformBasedOnInput w transform).1 = false ->
  (ModifyTransformBasedOnInput_writes w transform).2 = []
  /\ (ModifyTransformBasedOnInput w transform).2 = transform.
Proof.
  unfold ModifyTransformBasedOnInput.
  destruct (ModifyTransformBasedOnInput_writes w transform) as [r ws] eqn:E.
  cbn [fst snd]. intros ->.
  enough (ws = []) as -> by (split; reflexivity).
  revert E. unfold ModifyTransformBasedOnInput_writes.
  destruct (InputMode_eqb (input_mode_ w) kDragging).
  - destruct (GetMouseWorldRay (controller_ w)) as [[ok start] end_].
    destruct (IntersectRayToPlane _ _ _ _); intros [= <-]; reflexivity.
  - cbv zeta.
    destruct (KeyIsDown (controller_ w) FPLK_0);
      match goal with
      | |- context [if ?c then (true, _) else _] => destruct c
      end; intros [= <-]; reflexivity.
Qed.

End WorldEditorFacts.

(** The editor at rest, no key held: the call on [sample_transform] returns
    [false]. *)
Lemma ModifyTransformBasedOnInput_false_frame_witness :
  (WorldEditor.ModifyTransformBasedOnInput_writes
     (WorldEditor.sample_editor WorldEditor.kEditing WorldEditor.no_keys)
     WorldEditor.sample_transform).2 = []
  /\ (WorldEditor.ModifyTransformBasedOnInput
        (WorldEditor.sample_editor WorldEditor.kEditing WorldEditor.no_keys)
        WorldEditor.sample_transform).2 = WorldEditor.sample_transform.
Proof.
  apply ModifyTransformBasedOnInput_false_frame. vm_compute. reflexivity.
Defined.

(** A drag whose mouse ray points away from the drag plane also leaves the
    transform alone, and a held key moves it. *)
Example drag_without_intersection :
  WorldEditor.ModifyTransformBasedOnInput
    (WorldEditor.sample_editor WorldEditor.kDragging WorldEditor.no_keys)
    WorldEditor.sample_transform
  = (false, WorldEditor.sample_transform).
Proof. vm_compute. reflexivity. Qed.

Example key_i_moves_forward :
  (WorldEditor.ModifyTransformBasedOnInput
     (WorldEditor.sample_editor WorldEditor.kEditing
        (WorldEditor.only_key WorldEditor.FPLK_i))
     WorldEditor.sample_transform).1 = true.
Proof. vm_compute. reflexivity. Qed.

(** ** Balanced-span extraction *)

Section Brackets.
Import FlatbufferEditor.

Lemma append_cons (c : ascii) (p q : string) :
  String c p +:+ q = String c (p +:+ q).
Proof. reflexivity. Qed.

Lemma append_nil (q : string) : EmptyString +:+ q = q.
Proof. reflexivity. Qed.

Lemma nesting_app (p q : string) : nesting (p +:+ q) = nesting p + nesting q.
Proof.
  induction p as [|c p IH]; [reflexivity |].
  rewrite append_cons. cbn [nesting]. rewrite IH. lia.
Qed.

(** Scanning a span that closes all it opens, with [n] brackets open, stops
    right behind it. *)
Lemma until_matching_close_complete (body post : string) :
  forall n : nat,
    Z.of_nat n + nesting body = 0 ->
    (forall p q, body = p +:+ q -> 0 <= Z.of_nat n + nesting p) ->
    until_matching_close n (body +:+ String ">" post) = Some body.
Proof.
  induction body as [|c body IH]; intros n Htot Hpre.
  - cbn in Htot. assert (n = O) as -> by lia. reflexivity.
  - rewrite append_cons. cbn [until_matching_close]. cbn [nesting] in Htot.
    assert (Hhead := Hpre (String c EmptyString) body eq_refl).
    cbn [nesting] in Hhead.
    assert (Htail : forall k : nat,
               Z.of_nat k = Z.of_nat n + nesting (String c EmptyString) ->
               until_matching_close k (body +:+ String ">" post) = Some body).
    { intros k Hk. cbn [nesting] in Hk. apply IH; [lia |].
      intros p q ->. specialize (Hpre (String c p) q eq_refl).
      cbn [nesting] in Hpre. lia. }
    destruct (Ascii.eqb c "<") eqn:Eo.
    + rewrite (Htail (S n)); [reflexivity | cbn [nesting]; rewrite Eo; lia].
    + destruct (Ascii.eqb c ">") eqn:Ec.
      * destruct n as [|n]; [lia |].
        rewrite (Htail n); [reflexivity | cbn [nesting]; rewrite Eo, Ec; lia].
      * rewrite (Htail n); [reflexivity | cbn [nesting]; rewrite Eo, Ec; lia].
Qed.

(** Conversely, what the scan returns is followed by a closing bracket and
    closes exactly the [n] brackets that were open. *)
Lemma until_matching_close_sound (str : string) :
  forall (n : nat) (body : string),
    until_matching_close n str = Some body ->
    exists post,
      str = body +:+ String ">" post
      /\ Z.of_nat n + nesting body = 0
      /\ forall p q, body = p +:+ q -> 0 <= Z.of_nat n + nesting p.
Proof.
  induction str as [|c str IH]; intros n body; cbn [until_matching_close];
    [discriminate |].
  assert (Hrec : forall k : nat,
             Z.of_nat k = Z.of_nat n + nesting (String c EmptyString) ->
             0 <= Z.of_nat n ->
             option_map (String c) (until_matching_close k str) = Some body ->
             exists post,
               String c str = body +:+ String ">" post
               /\ Z.of_nat n + nesting body = 0
               /\ forall p q, body = p +:+ q -> 0 <= Z.of_nat n + nesting p).
  { intros k Hk Hn Hm. cbn [nesting] in Hk.
    destruct (until_matching_close k str) as [b|] eqn:E; [|discriminate].
    injection Hm as <-. destruct (IH _ _ E) as (post & -> & Htot & Hpre).
    exists post. split; [reflexivity |]. split; [cbn [nesting]; lia |].
    intros [|c' p] q Hpq; [cbn [nesting]; lia |].
    rewrite append_cons in Hpq. injection Hpq as <- ->.
    specialize (Hpre p q eq_refl). cbn [nesting]. lia. }
  destruct (Ascii.eqb c "<") eqn:Eo.
  - apply (Hrec (S n)); [cbn [nesting]; rewrite Eo; lia | lia].
  - destruct (Ascii.eqb c ">") eqn:Ec.
    + destruct n as [|n].
      * intros [= <-]. apply Ascii.eqb_eq in Ec as ->. exists str.
        split; [reflexivity |]. split; [reflexivity |].
        intros [|c' p] q Hpq; [cbn [nesting]; lia | discriminate].
      * apply (Hrec n); [cbn [nesting]; rewrite Eo, Ec; lia | lia].
    + apply (Hrec n); [cbn [nesting]; rewrite Eo, Ec; lia | lia].
Qed.

Lemma after_first_open_complete (pre rest : string) :
  no_open pre = true -> after_first_open (pre +:+ String "<" rest) = Some rest.
Proof.
  induction pre as [|c pre IH]; [reflexivity |].
  rewrite append_cons. cbn [no_open after_first_open].
  intros [Hc Hpre]%andb_true_iff. apply negb_true_iff in Hc. rewrite Hc. auto.
Qed.

Lemma after_first_open_sound (str rest : string) :
  after_first_open str = Some rest ->
  exists pre, str = pre +:+ String "<" rest /\ no_open pre = true.
Proof.
  induction str as [|c str IH]; cbn [after_first_open]; [discriminate |].
  destruct (Ascii.eqb c "<") eqn:Eo.
  - intros [= <-]. apply Ascii.eqb_eq in Eo as ->. now exists EmptyString.
  - intros (pre & -> & Hpre)%IH. exists (String c pre).
    cbn [no_open]. now rewrite Eo.
Qed.

(** C5.  [ExtractInlineStructDef] returns the text strictly between the first
    ['<'] and its matching ['>'], whatever precedes and follows; on
    ["< 1, < 2, 3 >, 4 >"] that is [" 1, < 2, 3 >, 4 "]; and a text whose
    first ['<'] has no matching ['>'], such as ["< 1, 2"], gives the empty
    string. *)
Theorem ExtractInlineStructDef_spec :
  ExtractInlineStructDef "< 1, < 2, 3 >, 4 >" = " 1, < 2, 3 >, 4 "
  /\ ExtractInlineStructDef "< 1, 2" = ""
  /\ (forall pre body post,
        no_open pre = true -> balanced body ->
        ExtractInlineStructDef (pre +:+ String "<" (body +:+ String ">" post))
        = body)
  /\ (forall str,
        (forall pre body post,
           no_open pre = true -> balanced body ->
           str <> pre +:+ String "<" (body +:+ String ">" post)) ->
        ExtractInlineStructDef str = "").
Proof.
  split; [reflexivity |]. split; [reflexivity |]. split.
  - intros pre body post Hpre [Htot Hbal]. unfold ExtractInlineStructDef.
    rewrite after_first_open_complete by assumption.
    rewrite until_matching_close_complete; [reflexivity | cbn; lia |].
    intros p q Hpq. specialize (Hbal p q Hpq). lia.
  - intros str Hnone. unfold ExtractInlineStructDef.
    destruct (after_first_open str) as [rest|] eqn:Eo; [|reflexivity].
    destruct (until_matching_close 0 rest) as [body|] eqn:Ec; [|reflexivity].
    exfalso.
    destruct (after_first_open_sound _ _ Eo) as (pre & -> & Hpre).
    destruct (until_matching_close_sound _ _ _ Ec) as (post & -> & Htot & Hbal).
    apply (Hnone pre body post Hpre); [|reflexivity].
    split; [cbn in Htot; lia |].
    intros p q Hpq. specialize (Hbal p q Hpq). cbn in Hbal. lia.
Qed.

Lemma balanced_example : balanced "b<c>d".
Proof.
  split; [reflexivity |].
  intros p q Hpq.
  do 5 (destruct p as [|? p]; [cbn; lia |];
        rewrite append_cons in Hpq; injection Hpq as <- Hpq).
  destruct p as [|? p]; [cbn; lia | discriminate].
Qed.

End Brackets.

(** The span of ["a<b<c>d>e>"] is found behind the leading text and in front
    of the text that follows the match. *)
Lemma ExtractInlineStructDef_spec_witness :
  FlatbufferEditor.ExtractInlineStructDef "a<b<c>d>e>" = "b<c>d".
Proof.
  apply (proj1 (proj2 (proj2 ExtractInlineStructDef_spec)) "a" "b<c>d" "e>").
  - reflexivity.
  - apply balanced_example.
Defined.

(** ** Enum text *)

Section EnumText.
Import FlatbufferEditor.

Lemma lookup_enum_value_None (e : EnumDef) (v : Z) :
  (forall name, ~ In (name, v) (enum_values e)) -> lookup_enum_value e v = None.
Proof.
  intros Hno. unfold lookup_enum_value.
  destruct (List.find _ _) as [[n v']|] eqn:E; [|reflexivity].
  apply List.find_some in E as [Hin Heq]. cbn in Heq.
  apply Z.eqb_eq in Heq as ->. now apply Hno in Hin.
Qed.

Lemma lookup_enum_name_None (e : EnumDef) (text : string) :
  (forall v, ~ In (text, v) (enum_values e)) -> lookup_enum_name e text = None.
Proof.
  intros Hno. unfold lookup_enum_name.
  destruct (List.find _ _) as [[n v']|] eqn:E; [|reflexivity].
  apply List.find_some in E as [Hin Heq]. cbn in Heq.
  apply String.eqb_eq in Heq as ->. now apply Hno in Hin.
Qed.

Lemma lookup_enum_name_Some (e : EnumDef) (text : string) (v : Z) :
  In (text, v) (enum_values e) ->
  exists v', In (text, v') (enum_values e) /\ lookup_enum_name e text = Some v'.
Proof.
  intros Hin. unfold lookup_enum_name.
  destruct (List.find _ _) as [[n v']|] eqn:E.
  - apply List.find_some in E as [Hin' Heq]. cbn in Heq.
    apply String.eqb_eq in Heq as ->. now exists v'.
  - apply (List.find_none _ _ E) in Hin. cbn in Hin.
    now rewrite String.eqb_refl in Hin.
Qed.

(** The decimal text of an integer does not start with a plus sign. *)
Lemma IntToText_no_plus (z : Z) (rest : string) : IntToText z <> String "+" rest.
Proof.
  unfold IntToText. destruct (Z.to_int z) as [d|d]; cbn; [|discriminate].
  destruct d; cbn; discriminate.
Qed.

Lemma to_int_not_nil (z : Z) : Z.to_int z <> Pos Nil /\ Z.to_int z <> Neg Nil.
Proof.
  destruct z as [|p|p]; cbn; split; try discriminate;
    intros [= E]; exact (DecimalPos.Unsigned.to_uint_nonnil p E).
Qed.

(** Integer text round trip. *)
Lemma ParseIntText_IntToText (z : Z) : ParseIntText (IntToText z) = Some z.
Proof.
  unfold ParseIntText.
  destruct (IntToText z) as [|c rest] eqn:E.
  - unfold IntToText in E.
    rewrite <- E, NilZero.isi by apply to_int_not_nil.
    cbn. now rewrite DecimalZ.of_to.
  - assert (c <> "+"%char) as Hc
        by (intros ->; exact (IntToText_no_plus _ _ E)).
    assert (Z.of_int <$> NilZero.int_of_string (String c rest) = Some z) as Hp.
    { rewrite <- E. unfold IntToText.
      rewrite NilZero.isi by apply to_int_not_nil.
      cbn. now rewrite DecimalZ.of_to. }
    destruct c as [[|] [|] [|] [|] [|] [|] [|] [|]]; try exact Hp.
    now contradiction Hc.
Qed.

Lemma uint_of_string_digits (s : string) (d : uint) :
  NilEmpty.uint_of_string s = Some d -> all_digits s = true.
Proof.
  revert d. induction s as [|c s IH]; intros d; cbn; [reflexivity |].
  destruct (NilEmpty.uint_of_string s) as [d'|]; [|discriminate].
  intros Hd. rewrite (IH d' eq_refl), andb_true_r.
  apply uint_of_char_spec in Hd.
  repeat (destruct Hd as [[-> _]|Hd]; [reflexivity |]).
  destruct Hd as [-> _]. reflexivity.
Qed.

(** Whatever [ParseIntText] accepts is integer text: a sign at most, then
    digits, and at least one of them. *)
Lemma ParseIntText_grammar (text : string) (z : Z) :
  ParseIntText text = Some z -> is_integer_text text = true.
Proof.
  destruct text as [|c rest]; [discriminate |].
  assert (Hu : forall s d, NilZero.uint_of_string s = Some d ->
                negb (String.eqb s EmptyString) && all_digits s = true).
  { intros [|c' s] d; [discriminate |]. intros Hd.
    now rewrite (uint_of_string_digits _ _ Hd). }
  destruct (Ascii.eqb c "+") eqn:Ep.
  - apply Ascii.eqb_eq in Ep as ->. cbn.
    destruct (NilZero.uint_of_string rest) as [d|] eqn:E; [|discriminate].
    intros _. exact (Hu _ _ E).
  - assert (ParseIntText (String c rest)
            = Z.of_int <$> NilZero.int_of_string (String c rest)) as ->.
    { destruct c as [[|] [|] [|] [|] [|] [|] [|] [|]]; try reflexivity.
      discriminate Ep. }
    unfold is_integer_text. rewrite Ep. cbn [orb NilZero.int_of_string].
    destruct (Ascii.eqb c "-") eqn:Em.
    + destruct (NilZero.uint_of_string rest) as [d|] eqn:E; [|discriminate].
      intros _. exact (Hu _ _ E).
    + destruct (NilZero.uint_of_string (String c rest)) as [d|] eqn:E;
        [|discriminate].
      intros _. exact (uint_of_string_digits _ _ E).
Qed.

(** C8.  For an enum field: the text of an integer parses even when no
    member has that value, and a stored value without a symbolic name is
    rendered as the raw integer, so ["5"] for 5; a member name parses to a
    member of that name; and a text that is neither a member name (compared
    exactly, case included) nor an integer is the error
    [kInvalidEnumValue]. *)
Theorem enum_fallback (e : EnumDef) :
  (forall z : Z,
      (forall name, ~ In (name, z) (enum_values e)) ->
      EnumToText e z = IntToText z
      /\ (exists v, ParseEnumText e (IntToText z) = inl v)
      /\ ((forall v, ~ In (IntToText z, v) (enum_values e)) ->
          ParseEnumText e (IntToText z) = inl z))
  /\ IntToText 5 = "5"
  /\ (forall text v,
        In (text, v) (enum_values e) ->
        exists v', In (text, v') (enum_values e)
                   /\ ParseEnumText e text = inl v')
  /\ (forall text,
        (forall v, ~ In (text, v) (enum_values e)) ->
        is_integer_text text = false ->
        ParseEnumText e text = inr kInvalidEnumValue).
Proof.
  split; [|split; [reflexivity | split]].
  - intros z Hz. split; [|split].
    + unfold EnumToText. now rewrite lookup_enum_value_None.
    + unfold ParseEnumText. destruct (lookup_enum_name _ _); [eauto |].
      rewrite ParseIntText_IntToText. eauto.
    + intros Hn. unfold ParseEnumText.
      now rewrite lookup_enum_name_None, ParseIntText_IntToText.
  - intros text v Hin.
    destruct (lookup_enum_name_Some _ _ _ Hin) as (v' & Hin' & Hl).
    exists v'. split; [assumption |]. unfold ParseEnumText. now rewrite Hl.
  - intros text Hn Hi. unfold ParseEnumText.
    rewrite lookup_enum_name_None by assumption.
    destruct (ParseIntText text) as [z|] eqn:E; [|reflexivity].
    apply ParseIntText_grammar in E. congruence.
Qed.

End EnumText.

Definition Color : FlatbufferEditor.EnumDef :=
  {| FlatbufferEditor.enum_type_name := "Color";
     FlatbufferEditor.enum_values := [("RED", 0); ("GREEN", 1); ("BLUE", 2)] |}.

(** With [enum Color { RED, GREEN, BLUE }]: ["5"] parses to 5, 5 is shown as
    ["5"], and ["red"] is not a value. *)
Lemma enum_fallback_witness :
  FlatbufferEditor.ParseEnumText Color "5" = inl 5
  /\ FlatbufferEditor.EnumToText Color 5 = "5"
  /\ FlatbufferEditor.ParseEnumText Color "red" = inr FlatbufferEditor.kInvalidEnumValue.
Proof.
  destruct (enum_fallback Color) as (Hint & _ & _ & Herr).
  assert (Hno5 : forall name, ~ In (name, 5) (FlatbufferEditor.enum_values Color)).
  { intros name [H|[H|[H|[]]]]; discriminate H. }
  destruct (Hint 5 Hno5) as (Htext & _ & Hparse).
  split; [|split].
  - apply Hparse. intros v [H|[H|[H|[]]]]; discriminate H.
  - exact Htext.
  - apply Herr; [|reflexivity].
    intros v [H|[H|[H|[]]]]; discriminate H.
Defined.

(** ** The traversal engine *)

Section TraversalFacts.
Import FlatbufferEditor.
Context `{Reflection}.

(** Induction over the reflected view, with the fields of a subtable. *)
Lemma Node_ind (P : Node -> Prop) :
  (forall name type value, P (Field name type value)) ->
  (forall name type fields, Forall P fields -> P (Subtable name type fields)) ->
  forall n, P n.
Proof.
  intros HF HS. fix IH 1. intros [name type value | name type fields].
  - apply HF.
  - apply HS. induction fields as [|f fields IHf]; constructor;
      [apply IH | exact IHf].
Qed.

(** A property of single visits that composes along the walk holds of the
    whole walk. *)
Section WalkInvariant.
Variables (mode : VisitMode) (ui : UI).
Variable Q : FlatbufferEditor -> Visited -> Prop.
Hypothesis Q_none : forall e, Q e (e, [], false).
Hypothesis Q_then : forall e e1 ev1 e2 ev2 r,
  Q e (e1, ev1, false) -> Q e1 (e2, ev2, r) -> Q e (e2, ev1 ++ ev2, r).
Hypothesis Q_field : forall name value type id e,
  Q e (VisitField mode ui name value type id e).
Hypothesis Q_subtable : forall name id e,
  Q e ((VisitSubtable mode ui name id e).1, false).

Lemma visit_fields_invariant (visit : Node -> FlatbufferEditor -> Visited)
    (fields : list Node) :
  Forall (fun f => forall e, Q e (visit f e)) fields ->
  forall e, Q e (visit_fields visit fields e).
Proof.
  induction 1 as [|f fields Hf _ IH]; intros e; cbn [visit_fields].
  - apply Q_none.
  - specialize (Hf e). destruct (visit f e) as [[e1 ev1] [|]]; [exact Hf |].
    specialize (IH e1).
    destruct (visit_fields visit fields e1) as [[e2 ev2] r].
    exact (Q_then _ _ _ _ _ _ Hf IH).
Qed.

Lemma VisitFlatbufferField_invariant (n : Node) :
  forall id e, Q e (VisitFlatbufferField mode ui id n e).
Proof.
  induction n as [name type value | name type fields IH] using Node_ind;
    intros id e; cbn [VisitFlatbufferField].
  - apply Q_field.
  - pose proof (Q_subtable name (child_id id name) e) as Hs.
    destruct (VisitSubtable mode ui name (child_id id name) e)
      as [[e0 ev0] [|]]; cbn [fst] in Hs; [|exact Hs].
    assert (Hall : Forall (fun f => forall e',
                Q e' (VisitFlatbufferField mode ui (child_id id name) f e'))
              fields) by (induction IH; constructor; auto).
    assert (Hf := visit_fields_invariant _ fields Hall e0).
    destruct (visit_fields _ fields e0) as [[e1 ev1] r].
    exact (Q_then _ _ _ _ _ _ Hs Hf).
Qed.

Lemma VisitFlatbufferTable_invariant (id : string) (fields : list Node)
    (e : FlatbufferEditor) :
  Q e (VisitFlatbufferTable mode ui id fields e).
Proof.
  apply visit_fields_invariant.
  induction fields; constructor; auto using VisitFlatbufferField_invariant.
Qed.

End WalkInvariant.

Definition is_resize (x : Event) : bool :=
  match x with EvWrite _ true => true | _ => false end.

(** No write of the events resized the flatbuffer. *)
Definition no_resize (ev : list Event) : Prop :=
  Forall (fun x => is_resize x = false) ev.

(** What commit visits do to the editor: entries only leave the edit
    session, and a write removes the entry of the field it commits, records
    the field as committed and raises the modified flag. *)
Record commit_effect (e e' : FlatbufferEditor) (ev : list Event) : Prop := {
  ce_edits : edit_fields_ e' ⊆ edit_fields_ e;
  ce_written : forall A r,
    In (EvWrite A r) ev ->
    is_Some (edit_fields_ e !! A) /\ edit_fields_ e' !! A = None
    /\ A ∈ committed_fields_ e' /\ flatbuffer_modified_ e' = true;
  ce_flag : flatbuffer_modified_ e = true -> flatbuffer_modified_ e' = true;
  ce_flag_from : flatbuffer_modified_ e' = true ->
    flatbuffer_modified_ e = true \/ exists A r, In (EvWrite A r) ev;
  ce_committed : committed_fields_ e ⊆ committed_fields_ e';
  ce_root_id : root_id_ e' = root_id_ e
}.

(** The shape of one walk: it does not take the root again, and when it
    reports a resize, the resizing write is the last thing it did. *)
Definition walk_shape (e : FlatbufferEditor) (v : Visited) : Prop :=
  ~ In EvRoot v.1.2
  /\ if v.2 then
       exists ev0 id, v.1.2 = ev0 ++ [EvWrite id true] /\ no_resize ev0
                      /\ (size (edit_fields_ v.1.1) < size (edit_fields_ e))%nat
     else no_resize v.1.2.

Definition commit_inv (e : FlatbufferEditor) (v : Visited) : Prop :=
  commit_effect e v.1.1 v.1.2 /\ walk_shape e v.

Ltac no_event :=
  let Hin := fresh "Hin" in
  intros Hin; cbn in Hin;
  solve [repeat (destruct Hin as [Hin|Hin]; [discriminate Hin |]);
         destruct Hin].

(** A visit that left the editor alone and wrote nothing. *)
Ltac untouched :=
  split; [split | split]; cbn [fst snd];
    [ reflexivity | intros ? ?; no_event | auto | auto | reflexivity
    | reflexivity | no_event | repeat constructor ].


Lemma commit_effect_trans (e e1 e2 : FlatbufferEditor) (ev1 ev2 : list Event) :
  commit_effect e e1 ev1 -> commit_effect e1 e2 ev2 ->
  commit_effect e e2 (ev1 ++ ev2).
Proof.
  intros [A1 B1 C1 D1 E1 F1] [A2 B2 C2 D2 E2 F2]. split.
  - etrans; eassumption.
  - intros A r' [Hin|Hin]%in_app_iff.
    + destruct (B1 _ _ Hin) as (? & ? & ? & ?). repeat split; auto.
      eapply lookup_weaken_None; eassumption.
    + destruct (B2 _ _ Hin) as (? & ? & ? & ?). repeat split; auto.
      eapply lookup_weaken_is_Some; eassumption.
  - auto.
  - intros Hm. destruct (D2 Hm) as [Hm1|(A & r' & Hin)].
    + destruct (D1 Hm1) as [?|(A & r' & Hin)]; [auto |].
      right. exists A, r'. apply in_app_iff. auto.
    + right. exists A, r'. apply in_app_iff. auto.
  - etrans; eassumption.
  - congruence.
Qed.


Lemma commit_inv_none (e : FlatbufferEditor) : commit_inv e (e, [], false).
Proof. untouched. Qed.

Lemma commit_inv_then (e e1 : FlatbufferEditor) ev1 e2 ev2 r :
  commit_inv e (e1, ev1, false) -> commit_inv e1 (e2, ev2, r) ->
  commit_inv e (e2, ev1 ++ ev2, r).
Proof.
  intros [E1 [R1 S1]] [E2 [R2 S2]]. cbn [fst snd] in *.
  split; [exact (commit_effect_trans _ _ _ _ _ E1 E2) |].
  split; cbn [fst snd].
  - intros [?|?]%in_app_iff; auto.
  - destruct r.
    + destruct S2 as (ev0 & id & -> & Hn & Hsz).
      exists (ev1 ++ ev0), id. split; [now rewrite app_assoc |].
      split; [apply Forall_app; auto |].
      pose proof (map_subseteq_size _ _ (ce_edits _ _ _ E1)). lia.
    + apply Forall_app; auto.
Qed.

Lemma commit_inv_field (ui : UI) name value type id e :
  commit_inv e (VisitField kCommitEdits ui name value type id e).
Proof.
  unfold VisitField.
  destruct (edit_fields_ e !! id) as [text|] eqn:El; [|untouched].
  destruct (String.eqb text value); [untouched |].
  destruct (ParseText text type) as [v|err]; [|untouched].
  destruct (ApplyTablePatch (flatbuffer_ e) id v) as [buffer resized].
  split; [split | split]; cbn.
  - apply delete_subseteq.
  - intros A r [?|[[= <- <-]|[]]]; [discriminate |].
    rewrite El, lookup_delete_eq. repeat split; eauto. set_solver.
  - reflexivity.
  - intros _. right. exists id, resized. auto.
  - set_solver.
  - reflexivity.
  - no_event.
  - destruct resized.
    + exists [EvVisit id], id. split; [reflexivity |].
      split; [repeat constructor |].
      apply map_subset_size, delete_subset. rewrite El. eauto.
    + repeat constructor.
Qed.

Lemma commit_inv_subtable (ui : UI) name id e :
  commit_inv e ((VisitSubtable kCommitEdits ui name id e).1, false).
Proof. cbn. untouched. Qed.

Lemma commit_inv_table (ui : UI) id fields e :
  commit_inv e (VisitFlatbufferTable kCommitEdits ui id fields e).
Proof.
  apply VisitFlatbufferTable_invariant.
  - apply commit_inv_none.
  - apply commit_inv_then.
  - apply commit_inv_field.
  - apply commit_inv_subtable.
Qed.
























(** *** Entries that do not parse *)

Section ParseFailure.
Variables (A text : string).

(** The pending text of [A] does not parse as any field that goes by the id
    [A] under the fields at hand. *)
Definition fails_in (id : string) (fields : list Node) : Prop :=
  forall type value,
    In (A, type, value) (leaves id fields) -> exists err, ParseText text type = inr err.

(** A visit and the same visit of the editor without the entry of [A]: the
    second does what the first does, apart from the entry, which the first
    keeps, and the parse errors of [A]; the first writes nothing for [A]. *)
Definition unaffected (v v' : Visited) : Prop :=
  v' = (without A v.1.1, drop_errors A v.1.2, v.2)
  /\ edit_fields_ v.1.1 !! A = Some text
  /\ forall r, ~ In (EvWrite A r) v.1.2.

Lemma unaffected_field (ui : UI) name value type id e :
  (child_id id name = A -> exists err, ParseText text type = inr err) ->
  edit_fields_ e !! A = Some text ->
  unaffected (VisitField kCommitEdits ui name value type (child_id id name) e)
             (VisitField kCommitEdits ui name value type (child_id id name)
                (without A e)).
Proof.
  intros Hfail He. unfold VisitField, unaffected. cbn [edit_fields_ without].
  destruct (decide (child_id id name = A)) as [Heq|Hne].
  - rewrite Heq, He. cbn. rewrite lookup_delete_eq.
    destruct (String.eqb text value); cbn [fst snd].
    + split; [reflexivity | split; [assumption | intros ?; no_event]].
    + destruct (Hfail Heq) as [err ->]. cbn [fst snd drop_errors List.filter].
      rewrite String.eqb_refl. cbn.
      split; [reflexivity | split; [assumption | intros ?; no_event]].
  - cbn. rewrite lookup_delete_ne by congruence.
    destruct (edit_fields_ e !! child_id id name) as [text'|] eqn:El;
      cbn [fst snd];
      [|split; [reflexivity | split; [assumption | intros ?; no_event]]].
    destruct (String.eqb text' value); cbn [fst snd];
      [split; [reflexivity | split; [assumption | intros ?; no_event]] |].
    destruct (ParseText text' type) as [v|err]; cbn [fst snd].
    + destruct (ApplyTablePatch (flatbuffer_ e) (child_id id name) v)
        as [buffer resized]. cbn. split; [|split].
      * unfold without. cbn. now rewrite delete_delete.
      * now rewrite lookup_delete_ne.
      * intros r [?|[[= ? ?]|[]]]; [discriminate | contradiction].
    + cbn. apply String.eqb_neq in Hne. rewrite Hne. cbn.
      split; [reflexivity | split; [assumption | intros ?; no_event]].
Qed.

Lemma drop_errors_app (ev1 ev2 : list Event) :
  drop_errors A (ev1 ++ ev2) = drop_errors A ev1 ++ drop_errors A ev2.
Proof. apply List.filter_app. Qed.

Lemma unaffected_fields (visit : Node -> FlatbufferEditor -> Visited)
    (fields : list Node) :
  Forall (fun f => forall e, edit_fields_ e !! A = Some text ->
                     unaffected (visit f e) (visit f (without A e))) fields ->
  forall e, edit_fields_ e !! A = Some text ->
    unaffected (visit_fields visit fields e)
               (visit_fields visit fields (without A e)).
Proof.
  induction 1 as [|f fields Hf _ IH]; intros e He; cbn [visit_fields].
  - split; [reflexivity | split; [assumption | intros ?; no_event]].
  - destruct (Hf e He) as (-> & He1 & Hw1).
    destruct (visit f e) as [[e1 ev1] [|]]; cbn [fst snd] in *.
    + split; [reflexivity | split; assumption].
    + destruct (IH e1 He1) as (-> & He2 & Hw2).
      destruct (visit_fields visit fields e1) as [[e2 ev2] r].
      unfold unaffected. cbn [fst snd] in *.
      split; [now rewrite drop_errors_app |].
      split; [assumption |].
      intros r' [Hin|Hin]%in_app_iff; [exact (Hw1 _ Hin) | exact (Hw2 _ Hin)].
Qed.

Lemma unaffected_node (ui : UI) (n : Node) :
  forall id e,
    (forall type value, In (A, type, value) (leaves_of id n) ->
                        exists err, ParseText text type = inr err) ->
    edit_fields_ e !! A = Some text ->
    unaffected (VisitFlatbufferField kCommitEdits ui id n e)
               (VisitFlatbufferField kCommitEdits ui id n (without A e)).
Proof.
  induction n as [name type value | name type fields IH] using Node_ind;
    intros id e Hfail He; cbn [VisitFlatbufferField].
  - apply unaffected_field; [|assumption].
    intros Heq. apply (Hfail type value). cbn. left. now rewrite Heq.
  - cbn [VisitSubtable IsDraw VisitMode_eqb orb].
    assert (Hall : Forall (fun f => forall e', edit_fields_ e' !! A = Some text ->
                unaffected
                  (VisitFlatbufferField kCommitEdits ui (child_id id name) f e')
                  (VisitFlatbufferField kCommitEdits ui (child_id id name) f
                     (without A e'))) fields).
    { cbn [leaves_of] in Hfail. clear He.
      induction IH as [|f fields Hf _ IHf]; constructor.
      - intros e' He'. apply Hf; [|assumption].
        intros ty val Hin. apply (Hfail ty val). cbn. apply in_app_iff. auto.
      - apply IHf. intros ty val Hin. apply (Hfail ty val).
        cbn. apply in_app_iff. auto. }
    destruct (unaffected_fields _ _ Hall e He) as (-> & He1 & Hw1).
    destruct (visit_fields _ fields e) as [[e1 ev1] r]. cbn [fst snd] in *.
    split; [reflexivity |]. split; [assumption |].
    intros r' [Hin|Hin]; [discriminate | exact (Hw1 _ Hin)].
Qed.

Lemma unaffected_table (ui : UI) (id : string) (fields : list Node) e :
  fails_in id fields ->
  edit_fields_ e !! A = Some text ->
  unaffected (VisitFlatbufferTable kCommitEdits ui id fields e)
             (VisitFlatbufferTable kCommitEdits ui id fields (without A e)).
Proof.
  intros Hfail He. apply unaffected_fields; [|assumption].
  unfold fails_in, leaves in Hfail. clear He.
  induction fields as [|f fields IH]; constructor.
  - intros e' He'. apply unaffected_node; [|assumption].
    intros ty val Hin. apply (Hfail ty val). cbn. apply in_app_iff. auto.
  - apply IH. intros ty val Hin. apply (Hfail ty val).
    cbn. apply in_app_iff. auto.
Qed.

Lemma unaffected_passes (fuel : nat) :
  forall e,
    (forall b, fails_in (root_id_ e) (reflect b)) ->
    edit_fields_ e !! A = Some text ->
    unaffected (commit_passes fuel e) (commit_passes fuel (without A e)).
Proof.
  induction fuel as [|fuel IH]; intros e Hfail He; cbn [commit_passes].
  - split; [reflexivity | split; [assumption | intros ?; no_event]].
  - unfold pass_from_root.
    change (root_id_ (without A e)) with (root_id_ e).
    change (flatbuffer_ (without A e)) with (flatbuffer_ e).
    destruct (unaffected_table no_ui (root_id_ e) (reflect (flatbuffer_ e)) e
                (Hfail _) He) as (-> & He1 & Hw1).
    pose proof (commit_inv_table no_ui (root_id_ e) (reflect (flatbuffer_ e)) e)
      as [Heff _].
    destruct (VisitFlatbufferTable kCommitEdits no_ui (root_id_ e)
                (reflect (flatbuffer_ e)) e) as [[e1 ev1] [|]];
      cbn [fst snd] in *.
    + assert (Hfail1 : forall b, fails_in (root_id_ e1) (reflect b))
        by (rewrite (ce_root_id _ _ _ Heff); exact Hfail).
      destruct (IH e1 Hfail1 He1) as (-> & He2 & Hw2).
      destruct (commit_passes fuel e1) as [[e2 ev2] completed].
      unfold unaffected. cbn [fst snd] in *. split; [|split; [assumption |]].
      * change (EvRoot :: ev1 ++ ev2) with ((EvRoot :: ev1) ++ ev2).
        now rewrite drop_errors_app.
      * intros r [Hin|[Hin|Hin]%in_app_iff];
          [discriminate | exact (Hw1 _ Hin) | exact (Hw2 _ Hin)].
    + unfold unaffected. cbn [fst snd].
      split; [reflexivity |]. split; [assumption |].
      intros r [Hin|Hin]; [discriminate | exact (Hw1 _ Hin)].
Qed.

End ParseFailure.

(** With fuel beyond the number of entries, the amount of fuel does not
    matter. *)
Lemma commit_passes_fuel (fuel1 : nat) :
  forall fuel2 e,
    (size (edit_fields_ e) < fuel1)%nat -> (size (edit_fields_ e) < fuel2)%nat ->
    commit_passes fuel1 e = commit_passes fuel2 e.
Proof.
  induction fuel1 as [|fuel1 IH]; intros [|fuel2] e H1 H2; try lia.
  cbn [commit_passes]. unfold pass_from_root.
  pose proof (commit_inv_table no_ui (root_id_ e) (reflect (flatbuffer_ e)) e)
    as [_ [_ Hshape]].
  destruct (VisitFlatbufferTable kCommitEdits no_ui (root_id_ e)
              (reflect (flatbuffer_ e)) e) as [[e1 ev1] [|]];
    cbn [fst snd] in *; [|reflexivity].
  destruct Hshape as (_ & _ & _ & _ & Hlt).
  now rewrite (IH fuel2 e1) by lia.
Qed.

(** When the pending text of [A] parses in no buffer as a field that goes
    by the id [A], the whole commit, restarts included, leaves the entry of
    [A] as it was, writes nothing for [A], and commits the other fields as
    it does without the entry. *)
Lemma commit_unaffected_by_entry (e : FlatbufferEditor) (A text : string) :
  edit_fields_ e !! A = Some text ->
  (forall b, fails_in A text (root_id_ e) (reflect b)) ->
  edit_fields_ (CommitEditsToFlatbuffer e).1.1 !! A = Some text
  /\ (forall r, ~ In (EvWrite A r) (CommitEditsToFlatbuffer e).1.2)
  /\ CommitEditsToFlatbuffer (without A e)
     = (without A (CommitEditsToFlatbuffer e).1.1,
        drop_errors A (CommitEditsToFlatbuffer e).1.2,
        (CommitEditsToFlatbuffer e).2).
Proof.
  intros He Hfail. unfold CommitEditsToFlatbuffer.
  change (HasFlatbufferData (without A e)) with (HasFlatbufferData e).
  destruct (HasFlatbufferData e).
  - destruct (unaffected_passes A text (S (size (edit_fields_ e))) e Hfail He)
      as (Hrun & He1 & Hw1).
    split; [assumption |]. split; [assumption |]. rewrite <- Hrun.
    apply commit_passes_fuel; [|cbn; rewrite map_size_delete, He; cbn]; lia.
  - cbn. split; [assumption |]. split; [intros ?; no_event | reflexivity].
Qed.









(** *** The modified flag *)







(** *** Replacing and exporting the buffer *)

(** C4.  [SetFlatbufferData], with a null pointer or with data, empties the
    edit session and clears the modified flag; with a null pointer the
    buffer becomes empty and [HasFlatbufferData] answers false; and
    [HasFlatbufferData] answers true exactly when the buffer is not
    empty. *)
Theorem SetFlatbufferData_clears :
  (forall flatbuffer_data e,
      edit_fields_ (SetFlatbufferData flatbuffer_data e) = ∅
      /\ edit_fields_modified_ (SetFlatbufferData flatbuffer_data e) = false
      /\ flatbuffer_modified (SetFlatbufferData flatbuffer_data e) = false)
  /\ (forall e,
        flatbuffer_ (SetFlatbufferData None e) = []
        /\ HasFlatbufferData (SetFlatbufferData None e) = false)
  /\ (forall e, HasFlatbufferData e = true <-> flatbuffer_ e <> []).
Proof.
  split; [|split].
  - intros [src|] e; cbn; auto.
  - intros e. cbn. auto.
  - intros e. unfold HasFlatbufferData.
    destruct (flatbuffer_ e); cbn; split; congruence.
Qed.

Lemma CopyTable_idempotent :
  (forall src, reflect (CopyTable src) = reflect src) ->
  forall src, CopyTable (CopyTable src) = CopyTable src.
Proof. intros Hcopy src. unfold CopyTable at 1. now rewrite Hcopy. Qed.

Lemma reingest_export_buffer (e : FlatbufferEditor) :
  flatbuffer_ (reingest_export e)
  = if HasFlatbufferData e then CopyTable (CopyTable (flatbuffer_ e))
    else flatbuffer_ e.
Proof.
  unfold reingest_export, GetFlatbufferCopy.
  destruct (HasFlatbufferData e); reflexivity.
Qed.

(** What the editor adds to the copy of the reflection library.  The bytes
    of a copy are those the library's [CopyTable] builds, and the editor
    does not look into them: whether a second round of [Replace(ExportCopy())]
    gives the same bytes is a property of that library.  If its copy reads
    back as the original does, the buffer after the second round is byte
    for byte the buffer after the first, and so is what it exports. *)
Lemma reingest_export_fixed_point :
  (forall src, reflect (CopyTable src) = reflect src) ->
  forall e,
    flatbuffer_ (reingest_export (reingest_export e))
    = flatbuffer_ (reingest_export e)
    /\ GetFlatbufferCopy (reingest_export (reingest_export e))
       = GetFlatbufferCopy (reingest_export e).
Proof.
  intros Hcopy e.
  assert (Hbuf : flatbuffer_ (reingest_export (reingest_export e))
                 = flatbuffer_ (reingest_export e)).
  { destruct (HasFlatbufferData e) eqn:Hd.
    - rewrite (reingest_export_buffer (reingest_export e)).
      destruct (HasFlatbufferData (reingest_export e)); [|reflexivity].
      rewrite (reingest_export_buffer e), Hd.
      now rewrite !(CopyTable_idempotent Hcopy).
    - assert (reingest_export e = e) as Hsame
          by (unfold reingest_export, GetFlatbufferCopy; now rewrite Hd).
      now rewrite !Hsame. }
  split; [exact Hbuf |].
  unfold GetFlatbufferCopy, HasFlatbufferData. now rewrite Hbuf.
Qed.

End TraversalFacts.

(* ===================================================================== *)
(** * Part V. The properties on the sample schema                         *)
(* ===================================================================== *)

Section SampleFacts.
Import FlatbufferEditor Sample.

Lemma byte_of_text_of_byte (c : Byte.byte) : byte_of_text (text_of_byte c) = c.
Proof. destruct c; vm_compute; reflexivity. Qed.

Lemma filter_nonzero_twice (l : list Byte.byte) :
  List.filter nonzero (List.filter nonzero l) = List.filter nonzero l.
Proof.
  induction l as [|c l IH]; [reflexivity |]. cbn [List.filter].
  destruct (nonzero c) eqn:E; [|exact IH].
  cbn [List.filter]. now rewrite E, IH.
Qed.

(** The copy of the sample schema preserves the table: a copy reads back as
    the original does. *)
Lemma sample_copy_preserves (src : list Byte.byte) :
  reflect (CopyTable src) = reflect src.
Proof.
  unfold CopyTable. cbn [reflect build sample_reflection].
  unfold sample_reflect at 2. cbn [sample_build].
  unfold sample_reflect at 1. cbn [nth drop].
  rewrite !byte_of_text_of_byte, list_byte_of_string_of_list_byte.
  change (drop 0 (List.filter nonzero (drop 3 src)))
    with (List.filter nonzero (drop 3 src)).
  now rewrite filter_nonzero_twice.
Qed.

End SampleFacts.


(** On the sample schema "300" does not parse as the ubyte hp: the pass
    reports the error, the entry stays, nothing is written for hp, and pos.x
    is committed. *)
Example parse_failure_sample :
  (FlatbufferEditor.pass_from_root FlatbufferEditor.kCommitEdits
     FlatbufferEditor.no_ui (Sample.edited "300" "ab" "5")).1.2
  = [ FlatbufferEditor.EvRoot;
      FlatbufferEditor.EvVisit "root.name";
      FlatbufferEditor.EvVisit "root.hp";
      FlatbufferEditor.EvParseError "root.hp" FlatbufferEditor.kParseError;
      FlatbufferEditor.EvVisit "root.pos";
      FlatbufferEditor.EvVisit "root.pos.x";
      FlatbufferEditor.EvWrite "root.pos.x" false;
      FlatbufferEditor.EvVisit "root.pos.y" ]
  /\ FlatbufferEditor.edit_fields_
       (FlatbufferEditor.pass_from_root FlatbufferEditor.kCommitEdits
          FlatbufferEditor.no_ui (Sample.edited "300" "ab" "5")).1.1
       !! "root.hp" = Some "300".
Proof. vm_compute. split; reflexivity. Qed.



(** On the sample schema the raw buffer has a byte of padding, so the first
    copy differs from it; the editor given its own export stays as it is. *)
Example reingest_export_sample :
  FlatbufferEditor.flatbuffer_ Sample.loaded <> Sample.raw
  /\ FlatbufferEditor.flatbuffer_
       (FlatbufferEditor.reingest_export
          (FlatbufferEditor.reingest_export Sample.loaded))
     = FlatbufferEditor.flatbuffer_ (FlatbufferEditor.reingest_export Sample.loaded)
  /\ FlatbufferEditor.GetFlatbufferCopy
       (FlatbufferEditor.reingest_export
          (FlatbufferEditor.reingest_export Sample.loaded))
     = FlatbufferEditor.GetFlatbufferCopy
         (FlatbufferEditor.reingest_export Sample.loaded).
Proof.
  split; [vm_compute; discriminate |].
  exact (reingest_export_fixed_point sample_copy_preserves Sample.loaded).
Qed.



(* ===================================================================== *)
(** * Part VI. More of the world editor                                    *)
(* ===================================================================== *)

(** ** Moving, turning and scaling the selected entity *)

Section TransformInputFacts.
Import WorldEditor.
Context {F : Type} `{FloatOps F}.

(** The keys that move, turn or scale; the shift keys only change the
    speed. *)
Definition action_keys : list Key :=
  [FPLK_i; FPLK_k; FPLK_j; FPLK_l; FPLK_p; FPLK_SEMICOLON; FPLK_u; FPLK_o;
   FPLK_y; FPLK_h; FPLK_n; FPLK_m; FPLK_EQUALS; FPLK_MINUS; FPLK_0].

(** X1.  While an entity is dragged, [ModifyTransformBasedOnInput] stores at most
    a position: the scale and the orientation of the transform are never
    changed, whatever the mouse and the keys do. *)
Theorem drag_keeps_scale_and_orientation
    (w : WorldEditor F) (transform : TransformDef F) :
  input_mode_ w = kDragging ->
  scale (ModifyTransformBasedOnInput w transform).2 = scale transform
  /\ orientation (ModifyTransformBasedOnInput w transform).2
     = orientation transform.
Proof.
  intros Hmode.
  unfold ModifyTransformBasedOnInput, ModifyTransformBasedOnInput_writes.
  rewrite Hmode. cbn [InputMode_eqb].
  destruct (GetMouseWorldRay (controller_ w)) as [[ok start] end_].
  destruct (IntersectRayToPlane _ _ _ _); split; reflexivity.
Qed.

(** X2.  A drag depends on the mouse ray, the drag point and the drag offset
    only: two editors that agree on those give the same answer and store the
    same position, whatever keys are held, whatever the configuration and
    the camera, whatever the transform held before, and whether or not
    [GetMouseWorldRay] reported success (its result is not looked at). *)
Theorem drag_ignores_keys_and_config
    (w1 w2 : WorldEditor F) (t1 t2 : TransformDef F) :
  input_mode_ w1 = kDragging ->
  input_mode_ w2 = kDragging ->
  (GetMouseWorldRay (controller_ w1)).1.2 = (GetMouseWorldRay (controller_ w2)).1.2 ->
  (GetMouseWorldRay (controller_ w1)).2 = (GetMouseWorldRay (controller_ w2)).2 ->
  drag_point_ w1 = drag_point_ w2 ->
  drag_offset_ w1 = drag_offset_ w2 ->
  ModifyTransformBasedOnInput_writes w1 t1
  = ModifyTransformBasedOnInput_writes w2 t2.
Proof.
  intros Hm1 Hm2 Hs He Hp Ho.
  unfold ModifyTransformBasedOnInput_writes.
  rewrite Hm1, Hm2. cbn [InputMode_eqb].
  destruct (GetMouseWorldRay (controller_ w1)) as [[ok1 s1] e1].
  destruct (GetMouseWorldRay (controller_ w2)) as [[ok2 s2] e2].
  cbn [fst snd] in Hs, He. subst s2 e2. rewrite Hp, Ho. reflexivity.
Qed.

(** X3.  Outside a drag the mouse plays no part: two editors that are not
    dragging and agree on the keys held, the configuration, the camera's up
    vector and the horizontal axes give the same answer and the same stores,
    whatever the mouse ray, the drag point and the drag offset are. *)
Theorem keyboard_ignores_mouse
    (w1 w2 : WorldEditor F) (transform : TransformDef F) :
  input_mode_ w1 <> kDragging ->
  input_mode_ w2 <> kDragging ->
  (forall k, KeyIsDown (controller_ w1) k = KeyIsDown (controller_ w2) k) ->
  config_ w1 = config_ w2 ->
  camera_up w1 = camera_up w2 ->
  horizontal_forward_ w1 = horizontal_forward_ w2 ->
  horizontal_right_ w1 = horizontal_right_ w2 ->
  ModifyTransformBasedOnInput_writes w1 transform
  = ModifyTransformBasedOnInput_writes w2 transform.
Proof.
  intros Hm1 Hm2 Hk Hc Hu Hf Hr.
  unfold ModifyTransformBasedOnInput_writes.
  replace (InputMode_eqb (input_mode_ w1) kDragging) with false
    by (destruct (input_mode_ w1); try reflexivity; contradiction).
  replace (InputMode_eqb (input_mode_ w2) kDragging) with false
    by (destruct (input_mode_ w2); try reflexivity; contradiction).
  unfold add_if, sub_if, PreciseMovement, GlobalFromHorizontal.
  rewrite Hc, Hu, Hf, Hr. rewrite !Hk. reflexivity.
Qed.

(** X4.  Key [0] resets the scale.  Outside a drag, with key [0] held and
    [0 != 1] on floats, the function returns [true] and the scale stored is
    [(1, 1, 1)], whatever the scale was and whatever other keys are held;
    the keys [=] and [-] have no effect then. *)
Theorem key_0_resets_scale (w : WorldEditor F) (transform : TransformDef F) :
  f_ne f_zero f_one = true ->
  input_mode_ w <> kDragging ->
  KeyIsDown (controller_ w) FPLK_0 = true ->
  (ModifyTransformBasedOnInput w transform).1 = true
  /\ scale (ModifyTransformBasedOnInput w transform).2
     = mk_Vec3 f_one f_one f_one.
Proof.
  intros Hne Hm H0.
  unfold ModifyTransformBasedOnInput, ModifyTransformBasedOnInput_writes.
  replace (InputMode_eqb (input_mode_ w) kDragging) with false
    by (destruct (input_mode_ w); try reflexivity; contradiction).
  cbv zeta. rewrite H0, Hne, !orb_true_r. split; reflexivity.
Qed.

(** X5.  With none of the fifteen action keys held (the shift keys may be),
    outside a drag, the function returns [false] and the transform is what
    it was, provided [0 != 0] and [1 != 1] are false on floats. *)
Theorem no_action_key_no_change (w : WorldEditor F) (transform : TransformDef F) :
  f_ne f_zero f_zero = false ->
  f_ne f_one f_one = false ->
  input_mode_ w <> kDragging ->
  (forall k, In k action_keys -> KeyIsDown (controller_ w) k = false) ->
  ModifyTransformBasedOnInput w transform = (false, transform).
Proof.
  intros H00 H11 Hm Hk.
  unfold ModifyTransformBasedOnInput, ModifyTransformBasedOnInput_writes.
  replace (InputMode_eqb (input_mode_ w) kDragging) with false
    by (destruct (input_mode_ w); try reflexivity; contradiction).
  unfold add_if, sub_if.
  rewrite !Hk by (unfold action_keys; cbn [In]; tauto).
  cbv zeta. rewrite H00, H11. reflexivity.
Qed.

(** X6.  A drag started from below the drag plane.  When the origin of the mouse
    ray is less than [0.001] above the horizontal plane through the drag
    point, [IntersectRayToPlane] answers with the vector from the drag point
    to the ray origin, not with a point of the plane: the drag returns
    [true] and stores that vector plus the drag offset as the position,
    wherever the ray points. *)
Theorem drag_from_below_plane (w : WorldEditor F) (transform : TransformDef F)
    (ok : bool) (start end_ : vec3 F) :
  input_mode_ w = kDragging ->
  GetMouseWorldRay (controller_ w) = (ok, start, end_) ->
  f_lt (DotProduct (vec3_sub start (drag_point_ w))
                   (mk_vec3 f_zero f_zero f_one)) f_0_001 = true ->
  (ModifyTransformBasedOnInput w transform).1 = true
  /\ LoadVec3 (position (ModifyTransformBasedOnInput w transform).2)
     = vec3_add (vec3_sub start (drag_point_ w)) (drag_offset_ w).
Proof.
  intros Hm Hray Hlt.
  unfold ModifyTransformBasedOnInput, ModifyTransformBasedOnInput_writes.
  rewrite Hm, Hray. cbn [InputMode_eqb].
  unfold IntersectRayToPlane. rewrite Hlt.
  split; reflexivity.
Qed.

End TransformInputFacts.
(** ** Highlighting and selecting *)

Section HighlightFacts.
Import WorldEditor WorldEditorScene.
Context {F : Type} `{FloatOps F} `{TintOps F}.

(** The tint [vec4(tint, tint, tint, 1)]. *)
Definition gray (tint : F) : vec4 F := mk_vec4 tint tint tint f_one.

(** Highlighting touches tints only, and only of entities that have one. *)
Definition same_scene (em em' : EntityManager F) : Prop :=
  entities em' = entities em
  /\ transform_children em' = transform_children em
  /\ meta em' = meta em
  /\ selection_option em' = selection_option em
  /\ forall y, is_Some (render_tint em' !! y) <-> is_Some (render_tint em !! y).

(** The children of every entity come before it in [rank]: the transform
    hierarchy has no cycle. *)
Definition forest (tc : gmap Entity (list EntityRef)) (rank : Entity -> nat) : Prop :=
  forall x children c,
    tc !! x = Some children -> In (Some c) children -> (rank c < rank x)%nat.

(** The depth of calls that highlighting an entity takes at most. *)
Definition depth_of (rank : Entity -> nat) (entity : EntityRef) : nat :=
  match entity with Some x => rank x + 2 | None => 1 end.

Lemma same_scene_refl (em : EntityManager F) : same_scene em em.
Proof. unfold same_scene. tauto. Qed.

Lemma same_scene_trans (a b c : EntityManager F) :
  same_scene a b -> same_scene b c -> same_scene a c.
Proof.
  unfold same_scene. intros (E1 & E2 & E3 & E4 & E5) (G1 & G2 & G3 & G4 & G5).
  split; [congruence |]. split; [congruence |]. split; [congruence |].
  split; [congruence |]. intros y. rewrite G5. apply E5.
Qed.

Lemma set_tint_lookup (x y : Entity) (tint : F) (em : EntityManager F) :
  render_tint (set_tint x tint em) !! y
  = if bool_decide (y = x)
    then (match render_tint em !! x with Some _ => Some (gray tint) | None => None end)
    else render_tint em !! y.
Proof.
  unfold set_tint. case_bool_decide as E.
  - subst y. destruct (render_tint em !! x) eqn:E1.
    + cbn. apply lookup_insert_eq.
    + exact E1.
  - destruct (render_tint em !! x); [| reflexivity].
    cbn. apply lookup_insert_ne. congruence.
Qed.

Lemma set_tint_same_scene (x : Entity) (tint : F) (em : EntityManager F) :
  same_scene em (set_tint x tint em).
Proof.
  unfold same_scene.
  assert (E : forall y, is_Some (render_tint (set_tint x tint em) !! y)
                        <-> is_Some (render_tint em !! y)).
  { intros y. rewrite set_tint_lookup. case_bool_decide as E; [| tauto].
    subst y. destruct (render_tint em !! x); [| tauto].
    split; intros _; eexists; reflexivity. }
  unfold set_tint in *. destruct (render_tint em !! x); cbn; auto.
Qed.

(** A property of the runs of [HighlightEntity] is established by showing
    it for one store of a tint and closing it under sequencing.  [ok x tint]
    is what is known of the calls made: it holds of the first call and is
    handed on to the children. *)
Section Runs.
Variable tc : gmap Entity (list EntityRef).
Variable R : EntityManager F -> EntityManager F -> Prop.
Variable ok : Entity -> F -> Prop.
Hypothesis R_refl : forall em, R em em.
Hypothesis R_trans : forall a b c, R a b -> R b c -> R a c.
Hypothesis R_step :
  forall em x tint,
    ok x tint -> IsValid em (Some x) = true -> transform_children em = tc ->
    R em (set_tint x tint em).
Hypothesis ok_child :
  forall x tint children c,
    ok x tint -> tc !! x = Some children -> In (Some c) children ->
    ok c (child_tint tint).

Lemma highlight_children_run
    (highlight : EntityManager F -> EntityRef -> option (EntityManager F))
    (children : list EntityRef) :
  (forall em child em',
      In child children -> transform_children em = tc ->
      highlight em child = Some em' ->
      R em em' /\ transform_children em' = tc) ->
  forall em em',
    transform_children em = tc ->
    highlight_children highlight children em = Some em' ->
    R em em' /\ transform_children em' = tc.
Proof.
  induction children as [| child rest IH]; intros Hh em em' Htc.
  - cbn. intros [= <-]. auto.
  - cbn. destruct (highlight em child) as [em1 |] eqn:E; [| discriminate].
    intros Hrest.
    destruct (Hh em child em1 (or_introl eq_refl) Htc E) as [R1 T1].
    destruct (IH (fun em c em' Hin => Hh em c em' (or_intror Hin)) em1 em' T1 Hrest)
      as [R2 T2].
    split; [exact (R_trans _ _ _ R1 R2) | exact T2].
Qed.

Lemma set_tint_children (x : Entity) (tint : F) (em : EntityManager F) :
  transform_children (set_tint x tint em) = transform_children em.
Proof. unfold set_tint. destruct (render_tint em !! x); reflexivity. Qed.

Lemma HighlightEntity_run (fuel : nat) :
  forall em entity tint em',
    transform_children em = tc ->
    (forall x, entity = Some x -> ok x tint) ->
    HighlightEntity fuel em entity tint = Some em' ->
    R em em' /\ transform_children em' = tc.
Proof.
  induction fuel as [| fuel IH]; intros em entity tint em' Htc Hok; [discriminate |].
  cbn [HighlightEntity].
  destruct (IsValid em entity) eqn:Hv; cbn [negb].
  2: { intros [= <-]. auto. }
  destruct entity as [x |]; [| intros [= <-]; auto].
  specialize (Hok x eq_refl).
  pose proof (R_step em x tint Hok Hv Htc) as R1.
  pose proof (set_tint_children x tint em) as T1. rewrite Htc in T1.
  rewrite T1.
  destruct (tc !! x) as [children |] eqn:Hc.
  2: { intros [= <-]. auto. }
  intros Hrun.
  assert (Hcalls : forall em0 child em1,
             In child children -> transform_children em0 = tc ->
             HighlightEntity fuel em0 child (child_tint tint) = Some em1 ->
             R em0 em1 /\ transform_children em1 = tc).
  { intros em0 [c |] em1 Hin Htc0 Hcall.
    - eapply IH; eauto. intros ? [= <-]. eapply ok_child; eauto.
    - eapply IH; eauto. intros ? [=]. }
  destruct (highlight_children_run _ children Hcalls _ _ T1 Hrun) as [R2 T2].
  split; [exact (R_trans _ _ _ R1 R2) | exact T2].
Qed.

End Runs.

(** [HighlightEntity] leaves the entities, the hierarchy, the [MetaData] and
    the selection options alone, and gives no tint to an entity that has no
    [RenderMeshData]. *)
Lemma HighlightEntity_same_scene (fuel : nat) (em em' : EntityManager F)
    (entity : EntityRef) (tint : F) :
  HighlightEntity fuel em entity tint = Some em' -> same_scene em em'.
Proof.
  intros Hrun.
  eapply (HighlightEntity_run (transform_children em) same_scene (fun _ _ => True));
    eauto using same_scene_refl, same_scene_trans, set_tint_same_scene.
Qed.

Lemma same_scene_IsValid (em em' : EntityManager F) (entity : EntityRef) :
  same_scene em em' -> IsValid em' entity = IsValid em entity.
Proof. intros (E & _). unfold IsValid. rewrite E. reflexivity. Qed.

(** On a hierarchy without cycles the recursion ends: [depth_of] fuel is
    enough. *)
Lemma HighlightEntity_total (rank : Entity -> nat) (fuel : nat) :
  forall (em : EntityManager F) entity tint,
    forest (transform_children em) rank ->
    (depth_of rank entity <= fuel)%nat ->
    exists em', HighlightEntity fuel em entity tint = Some em'.
Proof.
  induction fuel as [| fuel IH]; intros em entity tint Hf Hr;
    [destruct entity; cbn in Hr; lia |].
  cbn [HighlightEntity].
  destruct (IsValid em entity); cbn [negb]; [| eauto].
  destruct entity as [x |]; [| eauto].
  rewrite set_tint_children.
  destruct (transform_children em !! x) as [children |] eqn:Hc; [| eauto].
  assert (Hall : forall c, In c children -> (depth_of rank c <= fuel)%nat).
  { assert (rank x + 2 <= S fuel)%nat by exact Hr.
    intros [c |] Hin; cbn [depth_of]; [| lia].
    specialize (Hf x children c Hc Hin). lia. }
  assert (Htc : transform_children (set_tint x tint em) = transform_children em)
    by apply set_tint_children.
  revert Hall Htc. generalize (set_tint x tint em). clear Hc.
  induction children as [| child rest IHc]; intros em0 Hall Htc; cbn; [eauto |].
  destruct (IH em0 child (child_tint tint)) as [em1 E1].
  { rewrite Htc. exact Hf. }
  { apply Hall. left. reflexivity. }
  rewrite E1. apply IHc.
  - intros c Hin. apply Hall. right. exact Hin.
  - apply HighlightEntity_same_scene in E1. destruct E1 as (_ & E & _). congruence.
Qed.

(** Below the entity highlighted, only entities of smaller rank are
    reached. *)
Lemma HighlightEntity_local (rank : Entity -> nat) (fuel : nat)
    (em em' : EntityManager F) (a : Entity) (tint : F) :
  forest (transform_children em) rank ->
  HighlightEntity fuel em (Some a) tint = Some em' ->
  forall y, y <> a -> (rank a <= rank y)%nat ->
            render_tint em' !! y = render_tint em !! y.
Proof.
  intros Hf Hrun.
  refine (proj1 (HighlightEntity_run (transform_children em)
            (fun em em' => forall y, y <> a -> (rank a <= rank y)%nat ->
                                     render_tint em' !! y = render_tint em !! y)
            (fun x _ => x = a \/ (rank x < rank a)%nat)
            _ _ _ _ fuel em (Some a) tint em' eq_refl _ Hrun)).
  - reflexivity.
  - intros e1 e2 e3 H12 H23 y Hy Hr. rewrite H23, H12; auto.
  - intros e x t Hx _ _ y Hy Hr. rewrite set_tint_lookup.
    case_bool_decide as E; [| reflexivity]. subst y. destruct Hx; [contradiction | lia].
  - intros x t children c Hx Hc Hin. right. specialize (Hf x children c Hc Hin).
    destruct Hx as [-> | Hx]; lia.
  - intros x [= <-]. left. reflexivity.
Qed.

(** The entity highlighted itself ends with the tint asked for. *)
Lemma HighlightEntity_root (rank : Entity -> nat) (fuel : nat)
    (em em' : EntityManager F) (a : Entity) (tint : F) :
  forest (transform_children em) rank ->
  IsValid em (Some a) = true ->
  is_Some (render_tint em !! a) ->
  HighlightEntity fuel em (Some a) tint = Some em' ->
  render_tint em' !! a = Some (gray tint).
Proof.
  intros Hf Hv [v Hr] Hrun.
  destruct fuel as [| fuel]; [discriminate |].
  cbn [HighlightEntity] in Hrun. rewrite Hv in Hrun. cbn [negb] in Hrun.
  assert (Ha : render_tint (set_tint a tint em) !! a = Some (gray tint)).
  { rewrite set_tint_lookup, bool_decide_eq_true_2, Hr; reflexivity. }
  rewrite set_tint_children in Hrun.
  destruct (transform_children em !! a) as [children |] eqn:Hc.
  2: { injection Hrun as <-. exact Ha. }
  rewrite <- Ha.
  refine (proj1 (highlight_children_run (transform_children em)
            (fun e1 e2 => render_tint e2 !! a = render_tint e1 !! a)
            (fun _ => eq_refl)
            (fun e1 e2 e3 H12 H23 => eq_trans H23 H12)
            _ children _ (set_tint a tint em) em' (set_tint_children _ _ _) Hrun)).
  intros e0 [c |] e1 Hin Htc Hcall.
  - split.
    + eapply (HighlightEntity_local rank); eauto.
      * rewrite Htc. exact Hf.
      * specialize (Hf a children c Hc Hin). intros ->. lia.
      * specialize (Hf a children c Hc Hin). lia.
    + apply HighlightEntity_same_scene in Hcall. destruct Hcall as (_ & E & _). congruence.
  - destruct fuel; [discriminate |]. cbn in Hcall. injection Hcall as <-. auto.
Qed.

(** With [child_tint 1 = 1], un-highlighting sets tints to [(1, 1, 1, 1)]
    and nothing else. *)
Lemma HighlightEntity_one (fuel : nat) (em em' : EntityManager F)
    (entity : EntityRef) :
  child_tint f_one = f_one ->
  HighlightEntity fuel em entity f_one = Some em' ->
  forall y, render_tint em' !! y = render_tint em !! y
            \/ render_tint em' !! y = Some (gray f_one).
Proof.
  intros Hlaw Hrun.
  refine (proj1 (HighlightEntity_run (transform_children em)
            (fun em em' => forall y, render_tint em' !! y = render_tint em !! y
                                     \/ render_tint em' !! y = Some (gray f_one))
            (fun _ t => t = f_one)
            _ _ _ _ fuel em entity f_one em' eq_refl _ Hrun)).
  - intros e y. left. reflexivity.
  - intros e1 e2 e3 H12 H23 y.
    destruct (H23 y) as [E | E]; [| right; exact E].
    rewrite E. apply H12.
  - intros e x t -> _ _ y. rewrite set_tint_lookup.
    case_bool_decide as E; [| left; reflexivity]. subst y.
    destruct (render_tint e !! x); [right | left]; reflexivity.
  - intros x t children c -> _ _. exact Hlaw.
  - intros x _. reflexivity.
Qed.

(** X7.  Highlighting a valid entity of a hierarchy without cycles returns, and
    touches tints only: the entity has the tint asked for if it has
    [RenderMeshData], the entities, the hierarchy, the meta data and the
    options are what they were, no entity gains or loses its tint
    component, and an entity that is not below the highlighted one (its rank
    is not smaller) keeps its tint. *)
Theorem HighlightEntity_tints_subtree (rank : Entity -> nat) (fuel : nat)
    (em : EntityManager F) (a : Entity) (tint : F) :
  forest (transform_children em) rank ->
  (rank a + 2 <= fuel)%nat ->
  IsValid em (Some a) = true ->
  exists em',
    HighlightEntity fuel em (Some a) tint = Some em'
    /\ same_scene em em'
    /\ (is_Some (render_tint em !! a) ->
        render_tint em' !! a = Some (gray tint))
    /\ forall e, e <> a -> (rank a <= rank e)%nat ->
                 render_tint em' !! e = render_tint em !! e.
Proof.
  intros Hf Hfuel Hv.
  destruct (HighlightEntity_total rank fuel em (Some a) tint Hf Hfuel) as [em' E].
  exists em'. split; [exact E |].
  split; [exact (HighlightEntity_same_scene _ _ _ _ _ E) |].
  split.
  - intros Hr. exact (HighlightEntity_root rank fuel em em' a tint Hf Hv Hr E).
  - exact (HighlightEntity_local rank fuel em em' a tint Hf E).
Qed.

End HighlightFacts.

Section SelectFacts.
Import WorldEditor WorldEditorScene.
Context {F : Type} `{FloatOps F} `{TintOps F} `{Services F}.

(** The line [SelectEntity] logs for an entity. *)
Definition select_log (em : EntityManager F) (entity_ref : EntityRef) : list Output :=
  if IsValid em entity_ref then
    match entity_ref ≫= (fun x => meta em !! x) with
    | Some data =>
        [LogInfo ("Highlighting entity '" +:+ entity_id data
                  +:+ "' with prototype '" +:+ prototype data +:+ "'")]
    | None => []
    end
  else [].

(** The two stages of [SelectEntity] on the entity manager. *)
Definition select_stage1 (fuel : nat) (entity_ref : EntityRef)
    (em : EntityManager F) : option (EntityManager F) :=
  if IsValid em entity_ref then HighlightEntity fuel em entity_ref f_two
  else Some em.

Definition select_stage2 (fuel : nat) (entity_ref selected : EntityRef)
    (em : EntityManager F) : option (EntityManager F) :=
  if IsValid em selected && negb (bool_decide (selected = entity_ref))
  then HighlightEntity fuel em selected f_one
  else Some em.

Lemma SelectEntity_stages (fuel : nat) (entity_ref : EntityRef) (w : WorldEditor F) :
  SelectEntity fuel entity_ref w
  = em1 ← select_stage1 fuel entity_ref (entity_manager_ w);
    em2 ← select_stage2 fuel entity_ref (selected_entity_ w) em1;
    Some (mk_WorldEditor (config_ w) em2 entity_ref (entity_cycler_ w)
            (event_manager_ w) (schema_data_ w) (schema_text_ w)
            (file_system w)
            (output w ++ select_log (entity_manager_ w) entity_ref)).
Proof.
  unfold SelectEntity, select_stage1, select_stage2, select_log.
  destruct (IsValid (entity_manager_ w) entity_ref) eqn:Hv; cbn [mbind option_bind].
  - destruct (entity_ref ≫= _) as [data |] eqn:Hd; cbn.
    + destruct (HighlightEntity fuel _ entity_ref f_two) as [em1 |]; cbn; [| reflexivity].
      destruct (IsValid em1 (selected_entity_ w) && _); cbn; [| reflexivity].
      destruct (HighlightEntity fuel em1 _ f_one); reflexivity.
    + destruct (HighlightEntity fuel _ entity_ref f_two) as [em1 |]; cbn; [| reflexivity].
      rewrite app_nil_r.
      destruct (IsValid em1 (selected_entity_ w) && _); cbn; [| reflexivity].
      destruct (HighlightEntity fuel em1 _ f_one); reflexivity.
  - rewrite app_nil_r. cbn.
    destruct (IsValid (entity_manager_ w) (selected_entity_ w) && _); cbn;
      [| destruct w; reflexivity].
    destruct (HighlightEntity fuel _ _ f_one); reflexivity.
Qed.

Lemma forest_same_scene (em em' : EntityManager F) (rank : Entity -> nat) :
  same_scene em em' -> forest (transform_children em) rank ->
  forest (transform_children em') rank.
Proof. intros (_ & E & _). rewrite E. auto. Qed.

Lemma depth_of_bound (rank : Entity -> nat) (fuel : nat) (entity : EntityRef) :
  (forall x, (rank x + 2 <= fuel)%nat) -> (depth_of rank entity <= fuel)%nat.
Proof.
  intros Hb. destruct entity as [x |]; cbn; [apply Hb |].
  specialize (Hb O). lia.
Qed.

Lemma select_stage1_total (rank : Entity -> nat) (fuel : nat)
    (entity_ref : EntityRef) (em : EntityManager F) :
  forest (transform_children em) rank ->
  (forall x, (rank x + 2 <= fuel)%nat) ->
  exists em1, select_stage1 fuel entity_ref em = Some em1 /\ same_scene em em1.
Proof.
  intros Hf Hb. unfold select_stage1.
  destruct (IsValid em entity_ref).
  - destruct (HighlightEntity_total rank fuel em entity_ref f_two Hf) as [em1 E];
      [apply depth_of_bound, Hb |].
    exists em1. split; [exact E |]. eapply HighlightEntity_same_scene, E.
  - exists em. split; [reflexivity | apply same_scene_refl].
Qed.

Lemma select_stage2_total (rank : Entity -> nat) (fuel : nat)
    (entity_ref selected : EntityRef) (em : EntityManager F) :
  forest (transform_children em) rank ->
  (forall x, (rank x + 2 <= fuel)%nat) ->
  exists em2, select_stage2 fuel entity_ref selected em = Some em2
              /\ same_scene em em2.
Proof.
  intros Hf Hb. unfold select_stage2.
  destruct (IsValid em selected && _).
  - destruct (HighlightEntity_total rank fuel em selected f_one Hf) as [em2 E];
      [apply depth_of_bound, Hb |].
    exists em2. split; [exact E |]. eapply HighlightEntity_same_scene, E.
  - exists em. split; [reflexivity | apply same_scene_refl].
Qed.

Lemma SelectEntity_returns (rank : Entity -> nat) (fuel : nat)
    (entity_ref : EntityRef) (w : WorldEditor F) :
  forest (transform_children (entity_manager_ w)) rank ->
  (forall x, (rank x + 2 <= fuel)%nat) ->
  exists w',
    SelectEntity fuel entity_ref w = Some w'
    /\ selected_entity_ w' = entity_ref
    /\ same_scene (entity_manager_ w) (entity_manager_ w')
    /\ output w' = output w ++ select_log (entity_manager_ w) entity_ref
    /\ entity_cycler_ w' = entity_cycler_ w
    /\ config_ w' = config_ w
    /\ event_manager_ w' = event_manager_ w
    /\ schema_data_ w' = schema_data_ w
    /\ schema_text_ w' = schema_text_ w
    /\ file_system w' = file_system w.
Proof.
  intros Hf Hb. rewrite SelectEntity_stages.
  destruct (select_stage1_total rank fuel entity_ref _ Hf Hb) as (em1 & E1 & S1).
  destruct (select_stage2_total rank fuel entity_ref (selected_entity_ w) em1
              (forest_same_scene _ _ _ S1 Hf) Hb) as (em2 & E2 & S2).
  rewrite E1. cbn. rewrite E2. cbn.
  eexists. split; [reflexivity |]. cbn.
  split; [reflexivity |]. split; [eapply same_scene_trans; eauto |].
  repeat (split; [reflexivity |]). reflexivity.
Qed.

(** X8.  [SelectEntity] on a hierarchy without cycles returns, with the entity
    asked for as the selection (also when the reference is not valid); it
    logs one line when the entity is valid and has [MetaData], and changes
    nothing else of the editor but tints: not the entities, the hierarchy,
    the meta data, the selection options, the cycler, the schemas or the
    files. *)
Theorem SelectEntity_selects (rank : Entity -> nat) (fuel : nat)
    (entity_ref : EntityRef) (w : WorldEditor F) :
  forest (transform_children (entity_manager_ w)) rank ->
  (forall x, (rank x + 2 <= fuel)%nat) ->
  exists w',
    SelectEntity fuel entity_ref w = Some w'
    /\ selected_entity_ w' = entity_ref
    /\ same_scene (entity_manager_ w) (entity_manager_ w')
    /\ output w' = output w ++ select_log (entity_manager_ w) entity_ref
    /\ entity_cycler_ w' = entity_cycler_ w
    /\ config_ w' = config_ w
    /\ event_manager_ w' = event_manager_ w
    /\ schema_data_ w' = schema_data_ w
    /\ schema_text_ w' = schema_text_ w
    /\ file_system w' = file_system w.
Proof. apply SelectEntity_returns. Qed.

Lemma same_scene_has_tint (em em' : EntityManager F) (y : Entity) :
  same_scene em em' -> is_Some (render_tint em !! y) ->
  is_Some (render_tint em' !! y).
Proof. intros (_ & _ & _ & _ & E) Hy. apply E. exact Hy. Qed.

(** X9.  Selecting an entity [b] that has [RenderMeshData] gives it the tint
    [(2, 2, 2, 1)], and gives the entity [a] selected before, when it is
    another one and still valid, the tint [(1, 1, 1, 1)], provided [b] is
    not below [a] in the hierarchy ([rank a <= rank b]). *)
Theorem SelectEntity_highlights (rank : Entity -> nat) (fuel : nat)
    (b : Entity) (w : WorldEditor F) :
  forest (transform_children (entity_manager_ w)) rank ->
  (forall x, (rank x + 2 <= fuel)%nat) ->
  IsValid (entity_manager_ w) (Some b) = true ->
  is_Some (render_tint (entity_manager_ w) !! b) ->
  (forall a, selected_entity_ w = Some a -> (rank a <= rank b)%nat) ->
  exists w',
    SelectEntity fuel (Some b) w = Some w'
    /\ render_tint (entity_manager_ w') !! b = Some (gray f_two)
    /\ forall a, selected_entity_ w = Some a -> a <> b ->
                 IsValid (entity_manager_ w) (Some a) = true ->
                 is_Some (render_tint (entity_manager_ w) !! a) ->
                 render_tint (entity_manager_ w') !! a = Some (gray f_one).
Proof.
  intros Hf Hb Hv Hr Hrank. rewrite SelectEntity_stages.
  destruct (select_stage1_total rank fuel (Some b) _ Hf Hb) as (em1 & E1 & S1).
  pose proof (forest_same_scene _ _ _ S1 Hf) as Hf1.
  destruct (select_stage2_total rank fuel (Some b) (selected_entity_ w) em1 Hf1 Hb)
    as (em2 & E2 & S2).
  rewrite E1. cbn. rewrite E2. cbn.
  eexists. split; [reflexivity |]. cbn.
  assert (Hb1 : render_tint em1 !! b = Some (gray f_two)).
  { unfold select_stage1 in E1. rewrite Hv in E1.
    exact (HighlightEntity_root rank fuel _ _ b f_two Hf Hv Hr E1). }
  unfold select_stage2 in E2.
  destruct (IsValid em1 (selected_entity_ w)) eqn:Hv1; cbn [andb] in E2.
  2: { injection E2 as <-. split; [exact Hb1 |].
       intros a Ha _ Hva _. rewrite (same_scene_IsValid _ _ _ S1), Ha in Hv1.
       unfold IsValid in *. congruence. }
  destruct (selected_entity_ w) as [a |] eqn:Hsel; [| discriminate].
  case_bool_decide as Hab; cbn [negb] in E2.
  { injection E2 as <-. split; [exact Hb1 |]. intros ? [= <-] Hne. congruence. }
  assert (Hne : b <> a) by congruence.
  split.
  - rewrite <- Hb1. eapply (HighlightEntity_local rank); eauto.
  - intros ? [= <-] _ Hva Hra.
    eapply (HighlightEntity_root rank); eauto.
    eapply same_scene_has_tint; eauto.
Qed.

Lemma highlight_children_reaches (fuel : nat) (rank : Entity -> nat) (b : Entity)
    (children : list EntityRef) :
  child_tint f_one = f_one ->
  forall em em' : EntityManager F,
    forest (transform_children em) rank ->
    IsValid em (Some b) = true ->
    is_Some (render_tint em !! b) ->
    highlight_children
      (fun em child => HighlightEntity fuel em child (child_tint f_one))
      children em = Some em' ->
    render_tint em !! b = Some (gray f_one) \/ In (Some b) children ->
    render_tint em' !! b = Some (gray f_one).
Proof.
  intros Hlaw. rewrite Hlaw.
  induction children as [| child rest IH]; intros em em' Hf Hv Hr; cbn.
  - intros [= <-] [Hb | []]. exact Hb.
  - destruct (HighlightEntity fuel em child f_one) as [em1 |] eqn:E1; [| discriminate].
    intros Hrest Hor.
    pose proof (HighlightEntity_same_scene _ _ _ _ _ E1) as S1.
    apply (IH em1 em' (forest_same_scene _ _ _ S1 Hf)); auto.
    + rewrite (same_scene_IsValid _ _ _ S1). exact Hv.
    + eapply same_scene_has_tint; eauto.
    + destruct Hor as [Hb | [-> | Hin]].
      * left. destruct (HighlightEntity_one _ _ _ _ Hlaw E1 b) as [E | E];
          [rewrite E; exact Hb | exact E].
      * left. eapply (HighlightEntity_root rank); eauto.
      * right. exact Hin.
Qed.

(** X10.  Selecting a child of the selected entity leaves it without highlight.
    When [b] is a child of the selected entity [a], [SelectEntity] first
    gives [b] the tint 2 and then un-highlights [a] together with its
    children, [b] among them: [b] ends up selected with the tint
    [(1, 1, 1, 1)] of an entity that is not selected.  ([child_tint 1 = 1]:
    the tint 1 fades to 1.) *)
Theorem select_child_of_selected_loses_highlight (rank : Entity -> nat)
    (fuel : nat) (a b : Entity) (children : list EntityRef) (w : WorldEditor F) :
  child_tint f_one = f_one ->
  forest (transform_children (entity_manager_ w)) rank ->
  (forall x, (rank x + 2 <= fuel)%nat) ->
  selected_entity_ w = Some a ->
  IsValid (entity_manager_ w) (Some a) = true ->
  transform_children (entity_manager_ w) !! a = Some children ->
  In (Some b) children ->
  IsValid (entity_manager_ w) (Some b) = true ->
  is_Some (render_tint (entity_manager_ w) !! b) ->
  exists w',
    SelectEntity fuel (Some b) w = Some w'
    /\ selected_entity_ w' = Some b
    /\ render_tint (entity_manager_ w') !! b = Some (gray f_one).
Proof.
  intros Hlaw Hf Hb Hsel Hva Hc Hin Hvb Hrb. rewrite SelectEntity_stages.
  destruct (select_stage1_total rank fuel (Some b) _ Hf Hb) as (em1 & E1 & S1).
  pose proof (forest_same_scene _ _ _ S1 Hf) as Hf1.
  destruct (select_stage2_total rank fuel (Some b) (selected_entity_ w) em1 Hf1 Hb)
    as (em2 & E2 & S2).
  rewrite E1. cbn. rewrite E2. cbn.
  eexists. split; [reflexivity |]. cbn. split; [reflexivity |].
  assert (Hab : a <> b).
  { intros ->. specialize (Hf b children b Hc Hin). lia. }
  unfold select_stage2 in E2. rewrite Hsel in E2.
  rewrite (same_scene_IsValid _ _ _ S1), Hva in E2.
  rewrite bool_decide_eq_false_2 in E2 by congruence. cbn in E2.
  destruct fuel as [| fuel]; [discriminate |].
  cbn [HighlightEntity] in E2.
  rewrite (same_scene_IsValid _ _ _ S1), Hva in E2. cbn [negb] in E2.
  rewrite set_tint_children in E2.
  destruct S1 as (S1e & S1c & S1r). rewrite S1c, Hc in E2.
  eapply (highlight_children_reaches fuel rank b children Hlaw _ _ _ _ _ E2).
  Unshelve.
  - right. exact Hin.
  - rewrite set_tint_children, S1c. exact Hf.
  - rewrite (same_scene_IsValid _ _ _ (set_tint_same_scene _ _ _)).
    unfold IsValid. rewrite S1e. exact Hvb.
  - eapply same_scene_has_tint; [apply set_tint_same_scene |].
    apply S1r. exact Hrb.
Qed.

(** X11.  [Deactivate] on a hierarchy without cycles returns with nothing
    selected and the cycler at [end()]; the entity that was selected, when
    still valid and with [RenderMeshData], is back at tint [(1, 1, 1, 1)];
    the exit event is broadcast exactly when there is an event manager, and
    nothing else is sent out. *)
Theorem Deactivate_deselects (rank : Entity -> nat) (fuel : nat)
    (w : WorldEditor F) :
  forest (transform_children (entity_manager_ w)) rank ->
  (forall x, (rank x + 2 <= fuel)%nat) ->
  exists w',
    Deactivate fuel w = Some w'
    /\ selected_entity_ w' = None
    /\ entity_cycler_ w' = length (entities (entity_manager_ w'))
    /\ entities (entity_manager_ w') = entities (entity_manager_ w)
    /\ output w'
       = output w ++ (if event_manager_ w
                      then [BroadcastEvent EditorEventAction_Exit None] else [])
    /\ forall a, selected_entity_ w = Some a ->
                 IsValid (entity_manager_ w) (Some a) = true ->
                 is_Some (render_tint (entity_manager_ w) !! a) ->
                 render_tint (entity_manager_ w') !! a = Some (gray f_one).
Proof.
  intros Hf Hb. unfold Deactivate.
  set (w0 := if event_manager_ w then emit _ w else w).
  assert (Hem : entity_manager_ w0 = entity_manager_ w)
    by (subst w0; destruct (event_manager_ w); reflexivity).
  assert (Hsel : selected_entity_ w0 = selected_entity_ w)
    by (subst w0; destruct (event_manager_ w); reflexivity).
  assert (Hout : output w0 = output w ++ (if event_manager_ w
                      then [BroadcastEvent EditorEventAction_Exit None] else []))
    by (subst w0; destruct (event_manager_ w); cbn; [| rewrite app_nil_r]; reflexivity).
  clearbody w0.
  rewrite SelectEntity_stages. unfold select_stage1. cbn [IsValid mbind option_bind].
  rewrite Hem, Hsel.
  destruct (select_stage2_total rank fuel None (selected_entity_ w) _ Hf Hb)
    as (em2 & E2 & S2).
  rewrite E2. cbn.
  eexists. split; [reflexivity |]. cbn.
  split; [reflexivity |]. split; [reflexivity |].
  split; [apply S2 |].
  split; [rewrite Hout, app_nil_r; reflexivity |].
  intros a Ha Hva Hra. unfold select_stage2 in E2. rewrite Ha in E2.
  unfold IsValid in E2 at 1. rewrite Hva in E2. cbn in E2.
  exact (HighlightEntity_root rank fuel _ _ a f_one Hf Hva Hra E2).
Qed.

End SelectFacts.

(** ** Cycling through the entities *)

Section CycleFacts.
Import WorldEditor WorldEditorScene.
Context {F : Type} `{FloatOps F} `{TintOps F} `{Services F}.

(** Whether the loop passes over the entity: it has [EditOptionsData] with
    an option other than the three that allow cycling, or none at all. *)
Definition passed_over (em : EntityManager F) (x : Entity) : Prop :=
  forall o, selection_option em !! x = Some o -> cycle_allowed o = false.

(** Where [FPLK_RIGHTBRACKET] takes the cycler, and [FPLK_LEFTBRACKET]. *)
Definition next_position (n c : nat) : nat :=
  let c := if negb (c =? n)%nat then S c else c in
  if (c =? n)%nat then O else c.
Definition previous_position (n c : nat) : nat :=
  Nat.pred (if (c =? 0)%nat then n else c).

(** Where the cycler is after the keys of one round. *)
Definition moved (right left : bool) (n c : nat) : nat :=
  let c := if right then next_position n c else c in
  if left then previous_position n c else c.

Lemma next_position_lt (n c : nat) :
  (0 < n)%nat -> (c <= n)%nat -> (next_position n c < n)%nat.
Proof.
  intros Hn Hc. unfold next_position.
  destruct (c =? n)%nat eqn:E; cbn [negb].
  - rewrite E. exact Hn.
  - apply Nat.eqb_neq in E. destruct (S c =? n)%nat eqn:E'; [exact Hn |].
    apply Nat.eqb_neq in E'. lia.
Qed.

Lemma previous_position_lt (n c : nat) :
  (0 < n)%nat -> (c <= n)%nat -> (previous_position n c < n)%nat.
Proof.
  intros Hn Hc. unfold previous_position.
  destruct (c =? 0)%nat eqn:E; [lia |]. apply Nat.eqb_neq in E. lia.
Qed.

Lemma moved_lt (right left : bool) (n c : nat) :
  right || left = true -> (0 < n)%nat -> (c <= n)%nat ->
  (moved right left n c < n)%nat.
Proof.
  intros Hk Hn Hc. unfold moved.
  destruct right, left; try discriminate.
  - apply previous_position_lt; [exact Hn |].
    pose proof (next_position_lt n c Hn Hc). lia.
  - apply next_position_lt; assumption.
  - apply previous_position_lt; assumption.
Qed.

(** One round over an entity that is passed over: the cycler moves and
    nothing else happens. *)
Lemma cycle_body_passes_over (fuel : nat) (right left changed : bool)
    (w : WorldEditor F) (x : Entity) :
  right || left = true ->
  (0 < length (entities (entity_manager_ w)))%nat ->
  (entity_cycler_ w <= length (entities (entity_manager_ w)))%nat ->
  entities (entity_manager_ w)
    !! moved right left (length (entities (entity_manager_ w))) (entity_cycler_ w)
  = Some x ->
  passed_over (entity_manager_ w) x ->
  cycle_body fuel right left w changed
  = Returned
      (set_entity_cycler_
         (moved right left (length (entities (entity_manager_ w))) (entity_cycler_ w))
         w, true).
Proof.
  intros Hk Hn Hc Hx Hp. unfold cycle_body, moved in *.
  set (n := length (entities (entity_manager_ w))) in *.
  assert (Hprev : forall c, (c <= n)%nat ->
            (if (c =? 0)%nat then n else c) = S (previous_position n c)).
  { intros c Hcn. unfold previous_position.
    destruct (c =? 0)%nat eqn:E; [lia |]. apply Nat.eqb_neq in E. lia. }
  destruct right, left; try discriminate; cbn [entity_cycler_ set_entity_cycler_ entity_manager_].
  - fold (next_position n (entity_cycler_ w)) in *.
    rewrite Hprev by (pose proof (next_position_lt n _ Hn Hc); lia).
    cbn [entity_cycler_ set_entity_cycler_ entity_manager_].
    rewrite Hx.
    destruct (selection_option (entity_manager_ w) !! x) as [o |] eqn:E;
      [rewrite (Hp o E) |]; reflexivity.
  - fold (next_position n (entity_cycler_ w)) in *.
    rewrite Hx.
    destruct (selection_option (entity_manager_ w) !! x) as [o |] eqn:E;
      [rewrite (Hp o E) |]; reflexivity.
  - rewrite Hprev by exact Hc.
    cbn [entity_cycler_ set_entity_cycler_ entity_manager_].
    rewrite Hx.
    destruct (selection_option (entity_manager_ w) !! x) as [o |] eqn:E;
      [rewrite (Hp o E) |]; reflexivity.
Qed.

(** X12.  The loop that never ends.  With a bracket key pressed, at least one
    entity, nothing validly selected, and no entity that cycling may select
    (every entity is without [EditOptionsData] or has an option such as
    [PointerOnly]), the [do ... while] loop of [AdvanceFrame] goes round
    the entities for ever: whatever the number of rounds allowed, it has
    neither returned nor left the entities. *)
Theorem cycle_never_ends (rounds fuel : nat) (right left changed : bool)
    (w : WorldEditor F) :
  right || left = true ->
  entities (entity_manager_ w) <> [] ->
  (entity_cycler_ w <= length (entities (entity_manager_ w)))%nat ->
  IsValid (entity_manager_ w) (selected_entity_ w) = false ->
  (forall x, In x (entities (entity_manager_ w)) ->
             passed_over (entity_manager_ w) x) ->
  cycle_entities rounds fuel right left w changed = OutOfFuel.
Proof.
  intros Hk Hne Hc Hsel Hall.
  assert (Hn : (0 < length (entities (entity_manager_ w)))%nat).
  { destruct (entities (entity_manager_ w)); [contradiction | cbn; lia]. }
  clear Hne. revert w changed Hc Hsel Hall Hn.
  induction rounds as [| rounds IH]; intros w changed Hc Hsel Hall Hn; [reflexivity |].
  cbn [cycle_entities].
  pose proof (moved_lt right left _ _ Hk Hn Hc) as Hlt.
  destruct (lookup_lt_is_Some_2 (entities (entity_manager_ w)) _ Hlt) as [x Hx].
  assert (Hin : In x (entities (entity_manager_ w))).
  { apply list_elem_of_In. eapply list_elem_of_lookup_2, Hx. }
  rewrite (cycle_body_passes_over fuel right left changed w x Hk Hn Hc Hx (Hall x Hin)).
  cbn [entity_manager_ set_entity_cycler_ entity_cycler_ selected_entity_].
  rewrite Hx.
  rewrite bool_decide_eq_false_2.
  - cbn [negb]. apply IH; cbn; auto. lia.
  - intros E. rewrite <- E in Hsel. cbn in Hsel.
    apply bool_decide_eq_false in Hsel. apply Hsel. apply list_elem_of_In, Hin.
Qed.

(** X13.  Without entities a bracket key takes the cycler off the entities
    in the first round of the loop: [FPLK_LEFTBRACKET] has the loop apply
    [--] to the iterator at [begin()] (also when [FPLK_RIGHTBRACKET] went
    down as well, which comes first and leaves the cycler where it is), and
    [FPLK_RIGHTBRACKET] alone has it call [ToReference()] on the iterator at
    [end()]. *)
Theorem cycle_without_entities (rounds fuel : nat) (right left changed : bool)
    (w : WorldEditor F) :
  right || left = true ->
  entities (entity_manager_ w) = [] ->
  (entity_cycler_ w <= length (entities (entity_manager_ w)))%nat ->
  cycle_entities (S rounds) fuel right left w changed
  = if left then BeforeBegin else AtEnd.
Proof.
  intros Hk He Hc. rewrite He in Hc. cbn [length] in Hc.
  assert (Hc0 : entity_cycler_ w = O) by lia. clear Hc.
  cbn [cycle_entities]. unfold cycle_body. rewrite He. cbn [length].
  destruct right, left; try discriminate;
    cbn [entity_cycler_ set_entity_cycler_ entity_manager_];
    rewrite ?Hc0; cbn [Nat.eqb negb entity_cycler_ set_entity_cycler_ entity_manager_];
    rewrite ?He; reflexivity.
Qed.

(** X14.  Pressing a bracket key selects the next entity that cycling may
    select.
    When the cycler, moved [k + 1] times, comes to an entity [x] with
    [EditOptionsData] that allows cycling, and the [k] entities before it on
    the way are passed over and none of them is the selected one, the loop
    returns after [k + 1] rounds with [x] selected and the cycler on it. *)
Theorem cycle_selects_next_allowed (rank : Entity -> nat) (fuel k rounds : nat)
    (right left changed : bool) (w : WorldEditor F) (x : Entity)
    (o : SelectionOption) :
  let n := length (entities (entity_manager_ w)) in
  forest (transform_children (entity_manager_ w)) rank ->
  (forall x, (rank x + 2 <= fuel)%nat) ->
  right || left = true ->
  (entity_cycler_ w <= n)%nat ->
  (forall i, (i < k)%nat ->
     exists y, entities (entity_manager_ w)
                 !! Nat.iter (S i) (moved right left n) (entity_cycler_ w) = Some y
               /\ passed_over (entity_manager_ w) y
               /\ Some y <> selected_entity_ w) ->
  entities (entity_manager_ w)
    !! Nat.iter (S k) (moved right left n) (entity_cycler_ w) = Some x ->
  selection_option (entity_manager_ w) !! x = Some o ->
  cycle_allowed o = true ->
  (k < rounds)%nat ->
  exists w',
    cycle_entities rounds fuel right left w changed = Returned (w', true)
    /\ selected_entity_ w' = Some x
    /\ entity_cycler_ w' = Nat.iter (S k) (moved right left n) (entity_cycler_ w)
    /\ same_scene (entity_manager_ w) (entity_manager_ w').
Proof.
  intros n Hf Hb Hk Hc Hskip Hx Ho Hallow Hr.
  assert (Hn : (0 < n)%nat).
  { apply lookup_lt_Some in Hx. subst n. lia. }
  revert w changed rounds n Hf Hc Hskip Hx Ho Hr Hn.
  induction k as [| k IH]; intros w changed rounds n Hf Hc Hskip Hx Ho Hr Hn.
  - destruct rounds as [| rounds]; [lia |]. cbn [cycle_entities].
    cbn [Nat.iter nat_rect] in *.
    destruct (SelectEntity_returns rank fuel (Some x)
                (set_entity_cycler_ (moved right left n (entity_cycler_ w)) w) Hf Hb)
      as (w' & Hs & Hsel & Hscene & _ & Hcyc & _).
    assert (Hbody : cycle_body fuel right left w changed = Returned (w', true)).
    { unfold cycle_body. fold n.
      assert (Hprev : forall c, (c <= n)%nat ->
                (if (c =? 0)%nat then n else c) = S (previous_position n c)).
      { intros c Hcn. unfold previous_position.
        destruct (c =? 0)%nat eqn:E; [lia |]. apply Nat.eqb_neq in E. lia. }
      unfold moved in *.
      destruct right, left; try discriminate;
        cbn [entity_cycler_ set_entity_cycler_ entity_manager_].
      - fold (next_position n (entity_cycler_ w)) in *.
        rewrite Hprev by (pose proof (next_position_lt n _ Hn Hc); lia).
        cbn [entity_cycler_ set_entity_cycler_ entity_manager_].
        rewrite Hx, Ho, Hallow.
        change (set_entity_cycler_ _ (set_entity_cycler_ _ w))
          with (set_entity_cycler_ (previous_position n (next_position n (entity_cycler_ w))) w).
        rewrite Hs. reflexivity.
      - fold (next_position n (entity_cycler_ w)) in *.
        rewrite Hx, Ho, Hallow, Hs. reflexivity.
      - rewrite Hprev by exact Hc.
        cbn [entity_cycler_ set_entity_cycler_ entity_manager_].
        rewrite Hx, Ho, Hallow, Hs. reflexivity. }
    rewrite Hbody. destruct Hscene as (He & Hrest).
    rewrite He, Hcyc. cbn [entity_cycler_ set_entity_cycler_ entity_manager_].
    rewrite Hx, Hsel. rewrite bool_decide_eq_true_2 by reflexivity. cbn [negb].
    exists w'. split; [reflexivity |]. split; [exact Hsel |].
    split; [exact Hcyc |]. split; [exact He | exact Hrest].
  - destruct rounds as [| rounds]; [lia |]. cbn [cycle_entities].
    destruct (Hskip O ltac:(lia)) as (y & Hy & Hpy & Hny).
    cbn [Nat.iter nat_rect] in Hy.
    rewrite (cycle_body_passes_over fuel right left changed w y Hk Hn Hc Hy Hpy).
    cbn [entity_manager_ set_entity_cycler_ entity_cycler_ selected_entity_].
    fold n. rewrite Hy. rewrite bool_decide_eq_false_2 by exact Hny. cbn [negb].
    pose proof (moved_lt right left n _ Hk Hn Hc) as Hlt.
    pose proof (IH (set_entity_cycler_ (moved right left n (entity_cycler_ w)) w)
                  true rounds) as IH1.
    cbv zeta in IH1.
    destruct IH1 as (w' & Hrun & Hsel & Hcyc & Hscene); auto.
    + cbn. lia.
    + intros i Hi. destruct (Hskip (S i) ltac:(lia)) as (z & Hz & Hpz & Hnz).
      exists z. cbn [entity_manager_ set_entity_cycler_ entity_cycler_ selected_entity_].
      rewrite <- Nat.iter_succ_r. auto.
    + cbn [entity_manager_ set_entity_cycler_ entity_cycler_].
      rewrite <- Nat.iter_succ_r. exact Hx.
    + lia.
    + exists w'. split; [exact Hrun |]. split; [exact Hsel |].
      split; [| exact Hscene].
      rewrite Hcyc. cbn [entity_manager_ set_entity_cycler_ entity_cycler_].
      rewrite <- Nat.iter_succ_r. reflexivity.
Qed.

End CycleFacts.

(** ** Selecting with the pointer *)

Section PointerFacts.
Import WorldEditor WorldEditorScene.
Context {F : Type} `{FloatOps F} `{TintOps F} `{Services F}.

Lemma ToIterator_lookup (em : EntityManager F) (e : Entity) :
  IsValid em (Some e) = true ->
  entities em !! ToIterator em e = Some e.
Proof.
  intros Hv. apply bool_decide_eq_true in Hv. unfold ToIterator.
  destruct (list_find (fun e' => e' = e) (entities em)) as [[i e'] |] eqn:E.
  - apply list_find_Some in E as (Hi & -> & _). exact Hi.
  - apply list_find_None in E. rewrite List.Forall_forall in E.
    exfalso. apply (E e); [| reflexivity]. apply list_elem_of_In, Hv.
Qed.

(** X20.  In editing mode a click on the entity that is selected asks for a
    drag and selects nothing: the cycler goes to the entity, and no line is
    logged and no tint is touched. *)
Theorem click_on_selected_asks_for_drag (fuel : nat) (e : Entity)
    (w : WorldEditor F) :
  IsValid (entity_manager_ w) (Some e) = true ->
  selected_entity_ w = Some e ->
  pointer_select fuel kEditing true (Some e) w
  = Returned (set_entity_cycler_ (ToIterator (entity_manager_ w) e) w, true).
Proof.
  intros Hv Hsel. unfold pointer_select. rewrite Hv.
  cbn [entity_manager_ set_entity_cycler_ entity_cycler_ selected_entity_].
  rewrite (ToIterator_lookup _ _ Hv), Hsel.
  cbn [InputMode_eqb andb]. rewrite bool_decide_eq_true_2 by reflexivity.
  reflexivity.
Qed.

(** X21.  A click on a valid entity, other than the selected one in editing
    mode, never asks for a drag and puts the cycler on the entity; it
    selects the entity when its [EditOptionsData] has the option
    [Unspecified], [Any] or [PointerOnly], and otherwise (another option
    such as [CycleOnly], or no [EditOptionsData]) it leaves the selection,
    the tints and the log as they were. *)
Theorem click_respects_selection_option (rank : Entity -> nat) (fuel : nat)
    (mode : InputMode) (e : Entity) (w : WorldEditor F) :
  forest (transform_children (entity_manager_ w)) rank ->
  (forall x, (rank x + 2 <= fuel)%nat) ->
  IsValid (entity_manager_ w) (Some e) = true ->
  ~ (mode = kEditing /\ selected_entity_ w = Some e) ->
  exists w',
    pointer_select fuel mode true (Some e) w = Returned (w', false)
    /\ entity_cycler_ w' = ToIterator (entity_manager_ w) e
    /\ (forall o, selection_option (entity_manager_ w) !! e = Some o ->
                  click_allowed o = true ->
                  selected_entity_ w' = Some e
                  /\ same_scene (entity_manager_ w) (entity_manager_ w'))
    /\ ((forall o, selection_option (entity_manager_ w) !! e = Some o ->
                   click_allowed o = false) ->
        w' = set_entity_cycler_ (ToIterator (entity_manager_ w) e) w).
Proof.
  intros Hf Hb Hv Hnot. unfold pointer_select. rewrite Hv.
  cbn [entity_manager_ set_entity_cycler_ entity_cycler_ selected_entity_].
  rewrite (ToIterator_lookup _ _ Hv).
  assert (Hcond : InputMode_eqb mode kEditing
                  && bool_decide (Some e = selected_entity_ w) = false).
  { destruct (InputMode_eqb mode kEditing) eqn:Hm; [| reflexivity].
    cbn [andb]. apply bool_decide_eq_false. intros E. apply Hnot.
    split; [destruct mode; try discriminate; reflexivity | congruence]. }
  rewrite Hcond.
  destruct (selection_option (entity_manager_ w) !! e) as [o |] eqn:Ho.
  - destruct (click_allowed o) eqn:Hallow.
    + destruct (SelectEntity_returns rank fuel (Some e)
                  (set_entity_cycler_ (ToIterator (entity_manager_ w) e) w) Hf Hb)
        as (w' & Hs & Hsel & Hscene & _ & Hcyc & _).
      rewrite Hs. exists w'. split; [reflexivity |].
      split; [exact Hcyc |]. split.
      * intros _ _ _. split; [exact Hsel | exact Hscene].
      * intros Hno. specialize (Hno o eq_refl). congruence.
    + eexists. split; [reflexivity |]. split; [reflexivity |]. split.
      * intros o' [= <-] Hyes. congruence.
      * reflexivity.
  - eexists. split; [reflexivity |]. split; [reflexivity |]. split.
    + intros o' [=].
    + reflexivity.
Qed.

End PointerFacts.

(** ** Saving the world *)

Section SaveFacts.
Import WorldEditorScene.
Context {F : Type} `{Services F}.

(** The paths of the binary files and of the text files written, in the
    order of the calls of [SaveFile]. *)
Definition binary_saves (out : list Output) : list string :=
  omap (fun o => match o with SaveFile_binary f _ _ => Some f | _ => None end) out.
Definition text_saves (out : list Output) : list string :=
  omap (fun o => match o with SaveFile_text f _ _ => Some f | _ => None end) out.

(** A file gets as far as [SaveFile] when its name is not blank and the list
    of its entities serializes. *)
Definition savable (em : EntityManager F) (filename : string) : bool :=
  negb (String.eqb filename "")
  && (SerializeEntityList (entities_serialized_for filename em)).1.

(** JSON is written when a text schema is loaded and parses. *)
Definition json_ok (w : WorldEditor F) : bool :=
  negb (String.eqb (schema_text_ w) "")
  && (Parse (schema_text_ w) (schema_include_paths (config_ w))
            (schema_file_text (config_ w))).1.

(** What a function leaves alone when it only writes files and logs. *)
Definition only_writes (w w' : WorldEditor F) : Prop :=
  entity_manager_ w' = entity_manager_ w
  /\ selected_entity_ w' = selected_entity_ w
  /\ entity_cycler_ w' = entity_cycler_ w
  /\ config_ w' = config_ w
  /\ event_manager_ w' = event_manager_ w
  /\ schema_data_ w' = schema_data_ w
  /\ schema_text_ w' = schema_text_ w.

Lemma only_writes_refl (w : WorldEditor F) : only_writes w w.
Proof. unfold only_writes. tauto. Qed.

Lemma only_writes_trans (a b c : WorldEditor F) :
  only_writes a b -> only_writes b c -> only_writes a c.
Proof.
  unfold only_writes.
  intros (A1 & A2 & A3 & A4 & A5 & A6 & A7) (B1 & B2 & B3 & B4 & B5 & B6 & B7).
  repeat split; congruence.
Qed.

Lemma binary_saves_app (a b : list Output) :
  binary_saves (a ++ b) = binary_saves a ++ binary_saves b.
Proof. apply omap_app. Qed.

Lemma text_saves_app (a b : list Output) :
  text_saves (a ++ b) = text_saves a ++ text_saves b.
Proof. apply omap_app. Qed.

Lemma SaveEntitiesInFile_effect (filename : string) (w : WorldEditor F) :
  only_writes w (SaveEntitiesInFile filename w)
  /\ exists extra,
       output (SaveEntitiesInFile filename w) = output w ++ extra
       /\ binary_saves extra
          = (if savable (entity_manager_ w) filename
             then [filename +:+ ".bin"] else [])
       /\ text_saves extra
          = (if savable (entity_manager_ w) filename && json_ok w
             then [filename +:+ ".json"] else []).
Proof.
  unfold SaveEntitiesInFile, savable, json_ok.
  destruct (String.eqb filename "") eqn:Hblank; cbn [negb andb].
  { split; [unfold only_writes; cbn; tauto |].
    eexists. split; [reflexivity |]. auto. }
  cbn [entity_manager_ emit].
  destruct (SerializeEntityList _) as [listed entity_list]. cbn [fst].
  destruct listed; cbn [negb andb].
  2: { split; [unfold only_writes; cbn; tauto |].
       eexists. split; [cbn; rewrite <- app_assoc; reflexivity |]. auto. }
  destruct (SaveFile _ _ _) as [saved fs].
  assert (Hsaved : forall w0 : WorldEditor F,
            (if saved then emit (LogInfo "Save (binary) successful.") w0
             else emit (LogInfo "Save (binary) failed.") w0)
            = emit (LogInfo (if saved then "Save (binary) successful."
                             else "Save (binary) failed.")) w0)
    by (destruct saved; reflexivity).
  rewrite Hsaved. cbn [schema_text_ emit config_ set_file_system file_system].
  destruct (String.eqb (schema_text_ w) "") eqn:Hschema; cbn [negb andb].
  { split; [unfold only_writes; cbn; tauto |].
    eexists. split; [cbn; rewrite <- !app_assoc; reflexivity |]. auto. }
  destruct (Parse _ _ _) as [parsed error_]. cbn [fst].
  destruct parsed.
  2: { split; [unfold only_writes; cbn; tauto |].
       eexists. split; [cbn; rewrite <- !app_assoc; reflexivity |]. auto. }
  destruct (SaveFile_string _ _ _) as [saved' fs'].
  destruct saved'.
  - split; [unfold only_writes; cbn; tauto |].
    eexists. split; [cbn; rewrite <- !app_assoc; reflexivity |]. auto.
  - split; [unfold only_writes; cbn; tauto |].
    eexists. split; [cbn; rewrite <- !app_assoc; reflexivity |]. auto.
Qed.

Lemma json_ok_only_writes (w w' : WorldEditor F) :
  only_writes w w' -> json_ok w' = json_ok w.
Proof.
  intros (_ & _ & _ & E4 & _ & _ & E7). unfold json_ok. rewrite E4, E7. reflexivity.
Qed.

Lemma save_files_effect (files : list string) :
  forall w : WorldEditor F,
    let w' := fold_left (fun w filename => SaveEntitiesInFile filename w) files w in
    only_writes w w'
    /\ exists extra,
         output w' = output w ++ extra
         /\ binary_saves extra
            = map (fun f => f +:+ ".bin")
                  (List.filter (savable (entity_manager_ w)) files)
         /\ text_saves extra
            = (if json_ok w
               then map (fun f => f +:+ ".json")
                        (List.filter (savable (entity_manager_ w)) files)
               else []).
Proof.
  induction files as [| f files IH]; intros w; cbn [fold_left].
  - split; [apply only_writes_refl |]. exists []. rewrite app_nil_r.
    cbn. destruct (json_ok w); auto.
  - destruct (SaveEntitiesInFile_effect f w) as (O1 & extra1 & E1 & B1 & T1).
    destruct (IH (SaveEntitiesInFile f w)) as (O2 & extra2 & E2 & B2 & T2).
    cbv zeta. split; [eapply only_writes_trans; eauto |].
    exists (extra1 ++ extra2). rewrite E2, E1, <- app_assoc.
    split; [reflexivity |].
    rewrite binary_saves_app, text_saves_app, B1, B2, T1, T2.
    rewrite (json_ok_only_writes _ _ O1).
    destruct O1 as (-> & _). cbn [List.filter].
    destruct (savable (entity_manager_ w) f), (json_ok w); cbn; auto.
Qed.

Lemma set_insert_In (s y : string) (l : list string) :
  In y (set_insert s l) <-> y = s \/ In y l.
Proof.
  induction l as [| x rest IH]; cbn; [intuition congruence |].
  destruct (String_as_OT.compare_spec s x) as [E | E | E]; cbn.
  - unfold String_as_OT.eq in E. subst x. intuition congruence.
  - intuition congruence.
  - rewrite IH. intuition congruence.
Qed.

Lemma set_insert_sorted (s : string) (l : list string) :
  StronglySorted String_as_OT.lt l ->
  StronglySorted String_as_OT.lt (set_insert s l).
Proof.
  induction 1 as [| x rest Hs IH Hx]; cbn.
  - constructor; constructor.
  - destruct (String_as_OT.compare_spec s x) as [E | E | E].
    + constructor; assumption.
    + constructor; [constructor; assumption |].
      constructor; [exact E |].
      eapply List.Forall_impl; [| exact Hx].
      intros z Hz. destruct String_as_OT.lt_strorder as [_ Ht].
      exact (Ht _ _ _ E Hz).
    + constructor; [exact IH |].
      apply List.Forall_forall. intros z Hz. apply set_insert_In in Hz.
      destruct Hz as [-> | Hz]; [exact E |].
      rewrite List.Forall_forall in Hx. auto.
Qed.

Lemma source_files_fold (em : EntityManager F) (l : list Entity) :
  forall acc,
    StronglySorted String_as_OT.lt acc ->
    let r := fold_left
               (fun filenames entity =>
                  match meta em !! entity with
                  | Some data => set_insert (source_file data) filenames
                  | None => filenames
                  end) l acc in
    StronglySorted String_as_OT.lt r
    /\ forall f, In f r <->
                 In f acc
                 \/ exists x data, In x l /\ meta em !! x = Some data
                                   /\ source_file data = f.
Proof.
  induction l as [| x l IH]; intros acc Hs; cbn [fold_left].
  - split; [exact Hs |]. intros f. split; [auto |].
    intros [Hf | (x & d & [] & _)]. exact Hf.
  - cbv zeta. destruct (meta em !! x) as [data |] eqn:Hm.
    + destruct (IH (set_insert (source_file data) acc) (set_insert_sorted _ _ Hs))
        as [S1 I1].
      split; [exact S1 |]. intros f. rewrite I1, set_insert_In. split.
      * intros [[-> | Hf] | (e & d & He & Hd & Hsf)].
        -- right. exists x, data. cbn. auto.
        -- left. exact Hf.
        -- right. exists e, d. cbn. auto.
      * intros [Hf | (e & d & [<- | He] & Hd & Hsf)].
        -- left. right. exact Hf.
        -- left. left. congruence.
        -- right. exists e, d. auto.
    + destruct (IH acc Hs) as [S1 I1].
      split; [exact S1 |]. intros f. rewrite I1. split.
      * intros [Hf | (e & d & He & Hd & Hsf)].
        -- left. exact Hf.
        -- right. exists e, d. cbn. auto.
      * intros [Hf | (e & d & [<- | He] & Hd & Hsf)].
        -- left. exact Hf.
        -- congruence.
        -- right. exists e, d. auto.
Qed.

(** X15.  The files [SaveWorld] goes through are the source files of the entities
    that have [MetaData], each once and in ascending order, wherever the
    entities are in the entity manager. *)
Theorem source_files_spec (em : EntityManager F) :
  StronglySorted String_as_OT.lt (source_files em)
  /\ forall f, In f (source_files em) <->
               exists x data, In x (entities em) /\ meta em !! x = Some data
                              /\ source_file data = f.
Proof.
  destruct (source_files_fold em (entities em) [] (SSorted_nil _)) as [S1 I1].
  split; [exact S1 |]. intros f. unfold source_files. rewrite I1.
  cbn. tauto.
Qed.

(** X16.  The binary files [SaveWorld] writes: [f.bin] for every source file [f]
    that is not blank and whose entity list serializes, once each and in the
    ascending order of the names; no other binary file, and none for the
    blank name under which entities without a source file are kept. *)
Theorem SaveWorld_binary_saves (w : WorldEditor F) :
  binary_saves (output (SaveWorld w))
  = binary_saves (output w)
    ++ map (fun f => f +:+ ".bin")
           (List.filter (savable (entity_manager_ w))
                        (source_files (entity_manager_ w))).
Proof.
  unfold SaveWorld.
  destruct (save_files_effect (source_files (entity_manager_ w)) w)
    as (_ & extra & E & B & _).
  rewrite E, binary_saves_app, B. reflexivity.
Qed.

(** X17.  The text files [SaveWorld] writes: with a text schema loaded that
    parses, [f.json] beside every [f.bin] it writes; without one, or with
    one that does not parse, no text file at all. *)
Theorem SaveWorld_text_saves (w : WorldEditor F) :
  text_saves (output (SaveWorld w))
  = text_saves (output w)
    ++ (if json_ok w
        then map (fun f => f +:+ ".json")
                 (List.filter (savable (entity_manager_ w))
                              (source_files (entity_manager_ w)))
        else []).
Proof.
  unfold SaveWorld.
  destruct (save_files_effect (source_files (entity_manager_ w)) w)
    as (_ & extra & E & _ & T).
  rewrite E, text_saves_app, T. reflexivity.
Qed.

(** X18.  [SaveWorld] writes files and logs, and that is all: the entities, the
    selection, the cycler, the configuration and the schemas are what they
    were, and what was sent out before is still there, in front. *)
Theorem SaveWorld_only_writes (w : WorldEditor F) :
  only_writes w (SaveWorld w)
  /\ exists extra, output (SaveWorld w) = output w ++ extra.
Proof.
  unfold SaveWorld.
  destruct (save_files_effect (source_files (entity_manager_ w)) w)
    as (O & extra & E & _).
  split; [exact O | exists extra; exact E].
Qed.

(** X19.  When the binary schema cannot be loaded, [LoadSchemaFiles] returns
    before it looks at the text schema: the schema text stays as it was, and
    if that was empty, a later [SaveWorld] writes no JSON file, however good
    the text schema on disk is. *)
Theorem binary_schema_missing_no_json (w : WorldEditor F) :
  (LoadFile (file_system w) (schema_file_binary (config_ w)) (schema_data_ w)).1
  = false ->
  schema_text_ (LoadSchemaFiles w) = schema_text_ w
  /\ (schema_text_ w = "" ->
      text_saves (output (SaveWorld (LoadSchemaFiles w))) = text_saves (output w)).
Proof.
  intros Hload.
  assert (Hl : schema_text_ (LoadSchemaFiles w) = schema_text_ w
               /\ config_ (LoadSchemaFiles w) = config_ w
               /\ text_saves (output (LoadSchemaFiles w)) = text_saves (output w)).
  { unfold LoadSchemaFiles.
    destruct (LoadFile (file_system w) _ (schema_data_ w)) as [loaded data].
    cbn [fst] in Hload. subst loaded. cbn.
    rewrite text_saves_app, app_nil_r. auto. }
  destruct Hl as (Ht & Hc & Ho).
  split; [exact Ht |]. intros Hempty.
  unfold SaveWorld.
  destruct (save_files_effect (source_files (entity_manager_ (LoadSchemaFiles w)))
              (LoadSchemaFiles w)) as (_ & extra & E & _ & T).
  rewrite E, text_saves_app, T, Ho.
  unfold json_ok. rewrite Ht, Hempty. cbn. apply app_nil_r.
Qed.

End SaveFacts.

(** ** The properties on the sample scene *)

Section SceneSamples.
Import WorldEditor WorldEditorScene.

Lemma sample_forest :
  forest (transform_children sample_scene) sample_rank.
Proof.
  intros e children c He Hin. cbn in He.
  apply lookup_insert_Some in He as [[<- <-] | [_ He]].
  - destruct Hin as [[= <-] | []]. cbn. lia.
  - apply lookup_singleton_Some in He as [<- <-]. destruct Hin.
Qed.

Lemma sample_fuel (e : Entity) : (sample_rank e + 2 <= 3)%nat.
Proof. destruct e; cbn; lia. Qed.

(** An editor that drags with the mouse ray starting one unit below the drag
    plane, and one at rest with the same keys but another mouse. *)
Definition drag_from_below_editor (mode : InputMode) (keys : Key -> bool) :
    WorldEditor.WorldEditor float :=
  {| WorldEditor.config_ := WorldEditor.config_ (sample_editor mode keys);
     controller_ := {| KeyIsDown := keys;
                       GetMouseWorldRay :=
                         (false, mk_vec3 3%float 4%float (-1)%float,
                                 mk_vec3 3%float 4%float 5%float) |};
     camera_up := mk_vec3 0%float 0%float 1%float;
     input_mode_ := mode;
     horizontal_forward_ := mk_vec3 0%float 1%float 0%float;
     horizontal_right_ := mk_vec3 1%float 0%float 0%float;
     drag_point_ := v0;
     drag_offset_ := mk_vec3 0.5%float 0%float 0%float |}.

End SceneSamples.

Lemma drag_keeps_scale_and_orientation_witness :
  WorldEditor.scale
    (WorldEditor.ModifyTransformBasedOnInput
       (drag_from_below_editor WorldEditor.kDragging WorldEditor.no_keys)
       WorldEditor.sample_transform).2
  = WorldEditor.scale WorldEditor.sample_transform
  /\ WorldEditor.orientation
       (WorldEditor.ModifyTransformBasedOnInput
          (drag_from_below_editor WorldEditor.kDragging WorldEditor.no_keys)
          WorldEditor.sample_transform).2
     = WorldEditor.orientation WorldEditor.sample_transform.
Proof.
  apply drag_keeps_scale_and_orientation. reflexivity.
Defined.

Lemma drag_ignores_keys_and_config_witness :
  WorldEditor.ModifyTransformBasedOnInput_writes
    (WorldEditor.sample_editor WorldEditor.kDragging WorldEditor.no_keys)
    WorldEditor.sample_transform
  = WorldEditor.ModifyTransformBasedOnInput_writes
      (WorldEditor.sample_editor WorldEditor.kDragging
         (WorldEditor.only_key WorldEditor.FPLK_i))
      (WorldEditor.mk_TransformDef
         (WorldEditor.mk_Vec3 7%float 8%float 9%float)
         (WorldEditor.mk_Vec3 2%float 2%float 2%float)
         (WorldEditor.mk_Vec3 0%float 0%float 0%float)).
Proof.
  apply drag_ignores_keys_and_config; reflexivity.
Defined.

Lemma keyboard_ignores_mouse_witness :
  WorldEditor.ModifyTransformBasedOnInput_writes
    (WorldEditor.sample_editor WorldEditor.kEditing
       (WorldEditor.only_key WorldEditor.FPLK_i))
    WorldEditor.sample_transform
  = WorldEditor.ModifyTransformBasedOnInput_writes
      (drag_from_below_editor WorldEditor.kMoving
         (WorldEditor.only_key WorldEditor.FPLK_i))
      WorldEditor.sample_transform.
Proof.
  apply keyboard_ignores_mouse; try reflexivity; discriminate.
Defined.

Lemma key_0_resets_scale_witness :
  (WorldEditor.ModifyTransformBasedOnInput
     (WorldEditor.sample_editor WorldEditor.kEditing
        (WorldEditor.only_key WorldEditor.FPLK_0))
     (WorldEditor.mk_TransformDef
        (WorldEditor.mk_Vec3 7%float 8%float 9%float)
        (WorldEditor.mk_Vec3 2%float 3%float 4%float)
        (WorldEditor.mk_Vec3 0%float 0%float 0%float))).1 = true
  /\ WorldEditor.scale
       (WorldEditor.ModifyTransformBasedOnInput
          (WorldEditor.sample_editor WorldEditor.kEditing
             (WorldEditor.only_key WorldEditor.FPLK_0))
          (WorldEditor.mk_TransformDef
             (WorldEditor.mk_Vec3 7%float 8%float 9%float)
             (WorldEditor.mk_Vec3 2%float 3%float 4%float)
             (WorldEditor.mk_Vec3 0%float 0%float 0%float))).2
     = WorldEditor.mk_Vec3 1%float 1%float 1%float.
Proof.
  refine (key_0_resets_scale
            (WorldEditor.sample_editor WorldEditor.kEditing
               (WorldEditor.only_key WorldEditor.FPLK_0))
            (WorldEditor.mk_TransformDef
               (WorldEditor.mk_Vec3 7%float 8%float 9%float)
               (WorldEditor.mk_Vec3 2%float 3%float 4%float)
               (WorldEditor.mk_Vec3 0%float 0%float 0%float)) _ _ _).
  - vm_compute. reflexivity.
  - discriminate.
  - reflexivity.
Defined.

Lemma no_action_key_no_change_witness :
  WorldEditor.ModifyTransformBasedOnInput
    (WorldEditor.sample_editor WorldEditor.kMoving
       (WorldEditor.only_key WorldEditor.FPLK_LSHIFT))
    WorldEditor.sample_transform
  = (false, WorldEditor.sample_transform).
Proof.
  apply no_action_key_no_change.
  - vm_compute. reflexivity.
  - vm_compute. reflexivity.
  - discriminate.
  - intros k Hk. cbn in Hk.
    repeat (destruct Hk as [<- | Hk]; [reflexivity |]). destruct Hk.
Defined.

Lemma drag_from_below_plane_witness :
  (WorldEditor.ModifyTransformBasedOnInput
     (drag_from_below_editor WorldEditor.kDragging WorldEditor.no_keys)
     WorldEditor.sample_transform).1 = true
  /\ WorldEditor.LoadVec3
       (WorldEditor.position
          (WorldEditor.ModifyTransformBasedOnInput
             (drag_from_below_editor WorldEditor.kDragging WorldEditor.no_keys)
             WorldEditor.sample_transform).2)
     = WorldEditor.vec3_add
         (WorldEditor.vec3_sub
            (WorldEditor.mk_vec3 3%float 4%float (-1)%float)
            (WorldEditor.drag_point_
               (drag_from_below_editor WorldEditor.kDragging WorldEditor.no_keys)))
         (WorldEditor.drag_offset_
            (drag_from_below_editor WorldEditor.kDragging WorldEditor.no_keys)).
Proof.
  refine (drag_from_below_plane
            (drag_from_below_editor WorldEditor.kDragging WorldEditor.no_keys)
            WorldEditor.sample_transform false
            (WorldEditor.mk_vec3 3%float 4%float (-1)%float)
            (WorldEditor.mk_vec3 3%float 4%float 5%float) _ _ _).
  - reflexivity.
  - reflexivity.
  - vm_compute. reflexivity.
Defined.

(** Highlighting the tree with tint 2: the tree has the tint, the rock keeps
    its own. *)
Lemma HighlightEntity_tints_subtree_witness :
  exists em',
    WorldEditorScene.HighlightEntity 3 WorldEditorScene.sample_scene
      (Some 0%nat) 2%float = Some em'
    /\ same_scene WorldEditorScene.sample_scene em'
    /\ (is_Some (WorldEditorScene.render_tint WorldEditorScene.sample_scene !! 0%nat) ->
        WorldEditorScene.render_tint em' !! 0%nat = Some (gray 2%float))
    /\ forall e, e <> 0%nat ->
                 (WorldEditorScene.sample_rank 0 <= WorldEditorScene.sample_rank e)%nat ->
                 WorldEditorScene.render_tint em' !! e
                 = WorldEditorScene.render_tint WorldEditorScene.sample_scene !! e.
Proof.
  refine (HighlightEntity_tints_subtree WorldEditorScene.sample_rank 3
            WorldEditorScene.sample_scene 0%nat 2%float _ _ _).
  - exact sample_forest.
  - cbn. lia.
  - reflexivity.
Defined.

Lemma SelectEntity_selects_witness :
  exists w',
    WorldEditorScene.SelectEntity 3 (Some 2%nat)
      (WorldEditorScene.sample_world WorldEditorScene.sample_scene (Some 0%nat))
    = Some w'
    /\ WorldEditorScene.selected_entity_ w' = Some 2%nat
    /\ same_scene WorldEditorScene.sample_scene (WorldEditorScene.entity_manager_ w')
    /\ WorldEditorScene.output w'
       = [WorldEditorScene.LogInfo
            "Highlighting entity 'rock' with prototype 'RockDef'"]
    /\ WorldEditorScene.entity_cycler_ w' = O
    /\ WorldEditorScene.config_ w'
       = WorldEditorScene.config_
           (WorldEditorScene.sample_world WorldEditorScene.sample_scene (Some 0%nat))
    /\ WorldEditorScene.event_manager_ w' = true
    /\ WorldEditorScene.schema_data_ w' = EmptyString
    /\ WorldEditorScene.schema_text_ w' = EmptyString
    /\ WorldEditorScene.file_system w' = [].
Proof.
  exact (SelectEntity_selects WorldEditorScene.sample_rank 3 (Some 2%nat)
           (WorldEditorScene.sample_world WorldEditorScene.sample_scene (Some 0%nat))
           sample_forest sample_fuel).
Defined.

(** The leaf is selected and the rock is selected next: the rock is tinted
    2 and the leaf is back at 1. *)
Lemma SelectEntity_highlights_witness :
  exists w',
    WorldEditorScene.SelectEntity 3 (Some 2%nat)
      (WorldEditorScene.sample_world WorldEditorScene.sample_scene (Some 1%nat))
    = Some w'
    /\ WorldEditorScene.render_tint (WorldEditorScene.entity_manager_ w') !! 2%nat
       = Some (gray 2%float)
    /\ forall a, Some 1%nat = Some a -> a <> 2%nat ->
         WorldEditorScene.IsValid WorldEditorScene.sample_scene (Some a) = true ->
         is_Some (WorldEditorScene.render_tint WorldEditorScene.sample_scene !! a) ->
         WorldEditorScene.render_tint (WorldEditorScene.entity_manager_ w') !! a
         = Some (gray 1%float).
Proof.
  refine (SelectEntity_highlights WorldEditorScene.sample_rank 3 2%nat
            (WorldEditorScene.sample_world WorldEditorScene.sample_scene (Some 1%nat))
            _ _ _ _ _).
  - exact sample_forest.
  - exact sample_fuel.
  - reflexivity.
  - eexists. reflexivity.
  - intros a [= <-]. cbn. lia.
Defined.

(** The tree is selected and its leaf is clicked: the leaf is the selection
    and is tinted as if it were not. *)
Lemma select_child_of_selected_loses_highlight_witness :
  exists w',
    WorldEditorScene.SelectEntity 3 (Some 1%nat)
      (WorldEditorScene.sample_world WorldEditorScene.sample_scene (Some 0%nat))
    = Some w'
    /\ WorldEditorScene.selected_entity_ w' = Some 1%nat
    /\ WorldEditorScene.render_tint (WorldEditorScene.entity_manager_ w') !! 1%nat
       = Some (gray 1%float).
Proof.
  refine (select_child_of_selected_loses_highlight WorldEditorScene.sample_rank 3
            0%nat 1%nat [Some 1%nat]
            (WorldEditorScene.sample_world WorldEditorScene.sample_scene (Some 0%nat))
            _ _ _ _ _ _ _ _ _).
  - vm_compute. reflexivity.
  - exact sample_forest.
  - exact sample_fuel.
  - reflexivity.
  - reflexivity.
  - reflexivity.
  - left. reflexivity.
  - reflexivity.
  - eexists. reflexivity.
Defined.

Lemma Deactivate_deselects_witness :
  exists w',
    WorldEditorScene.Deactivate 3
      (WorldEditorScene.sample_world WorldEditorScene.sample_scene (Some 0%nat))
    = Some w'
    /\ WorldEditorScene.selected_entity_ w' = None
    /\ WorldEditorScene.entity_cycler_ w'
       = length (WorldEditorScene.entities (WorldEditorScene.entity_manager_ w'))
    /\ WorldEditorScene.entities (WorldEditorScene.entity_manager_ w')
       = [0; 1; 2; 3]%nat
    /\ WorldEditorScene.output w'
       = [WorldEditorScene.BroadcastEvent
            WorldEditorScene.EditorEventAction_Exit None]
    /\ forall a, Some 0%nat = Some a ->
         WorldEditorScene.IsValid WorldEditorScene.sample_scene (Some a) = true ->
         is_Some (WorldEditorScene.render_tint WorldEditorScene.sample_scene !! a) ->
         WorldEditorScene.render_tint (WorldEditorScene.entity_manager_ w') !! a
         = Some (gray 1%float).
Proof.
  exact (Deactivate_deselects WorldEditorScene.sample_rank 3
           (WorldEditorScene.sample_world WorldEditorScene.sample_scene (Some 0%nat))
           sample_forest sample_fuel).
Defined.

(** On the locked scene, with nothing selected, a hundred rounds are not
    enough. *)
Lemma cycle_never_ends_witness :
  WorldEditorScene.cycle_entities 100 3 true false
    (WorldEditorScene.sample_world WorldEditorScene.locked_scene None) false
  = WorldEditorScene.OutOfFuel.
Proof.
  refine (cycle_never_ends 100 3 true false false
            (WorldEditorScene.sample_world WorldEditorScene.locked_scene None)
            _ _ _ _ _).
  - reflexivity.
  - discriminate.
  - cbn. lia.
  - reflexivity.
  - intros e He o. cbn in He.
    destruct He as [<- | [<- | [<- | [<- | []]]]]; vm_compute;
      intros [= <-]; reflexivity.
Defined.

Lemma cycle_without_entities_witness :
  WorldEditorScene.cycle_entities 1 3 false true
    (WorldEditorScene.sample_world
       (WorldEditorScene.mk_EntityManager [] ∅ ∅ ∅ ∅) None) false
  = WorldEditorScene.BeforeBegin
  /\ WorldEditorScene.cycle_entities 1 3 true false
       (WorldEditorScene.sample_world
          (WorldEditorScene.mk_EntityManager [] ∅ ∅ ∅ ∅) None) false
     = WorldEditorScene.AtEnd.
Proof.
  split.
  - refine (cycle_without_entities 0 3 false true false
              (WorldEditorScene.sample_world
                 (WorldEditorScene.mk_EntityManager [] ∅ ∅ ∅ ∅) None) _ _ _);
      [reflexivity | reflexivity | cbn; lia].
  - refine (cycle_without_entities 0 3 true false false
              (WorldEditorScene.sample_world
                 (WorldEditorScene.mk_EntityManager [] ∅ ∅ ∅ ∅) None) _ _ _);
      [reflexivity | reflexivity | cbn; lia].
Defined.

(** From the tree, [FPLK_RIGHTBRACKET] passes over the leaf, which is for
    the pointer only, and selects the rock. *)
Lemma cycle_selects_next_allowed_witness :
  exists w',
    WorldEditorScene.cycle_entities 2 3 true false
      (WorldEditorScene.sample_world WorldEditorScene.sample_scene (Some 0%nat))
      false
    = WorldEditorScene.Returned (w', true)
    /\ WorldEditorScene.selected_entity_ w' = Some 2%nat
    /\ WorldEditorScene.entity_cycler_ w' = 2%nat
    /\ same_scene WorldEditorScene.sample_scene (WorldEditorScene.entity_manager_ w').
Proof.
  refine (cycle_selects_next_allowed WorldEditorScene.sample_rank 3 1 2 true false
            false
            (WorldEditorScene.sample_world WorldEditorScene.sample_scene (Some 0%nat))
            2%nat WorldEditorScene.SelectionOption_CycleOnly _ _ _ _ _ _ _ _ _).
  - exact sample_forest.
  - exact sample_fuel.
  - reflexivity.
  - cbn. lia.
  - intros i Hi. assert (i = O) as -> by lia. exists 1%nat.
    split; [reflexivity |]. split; [| discriminate].
    intros o. vm_compute. intros [= <-]. reflexivity.
  - reflexivity.
  - reflexivity.
  - reflexivity.
  - lia.
Defined.

(** The rock is selected and clicked in editing mode. *)
Lemma click_on_selected_asks_for_drag_witness :
  WorldEditorScene.pointer_select 3 WorldEditor.kEditing true (Some 2%nat)
    (WorldEditorScene.sample_world WorldEditorScene.sample_scene (Some 2%nat))
  = WorldEditorScene.Returned
      (WorldEditorScene.set_entity_cycler_ 2
         (WorldEditorScene.sample_world WorldEditorScene.sample_scene (Some 2%nat)),
       true).
Proof.
  refine (click_on_selected_asks_for_drag 3 2%nat
            (WorldEditorScene.sample_world WorldEditorScene.sample_scene (Some 2%nat))
            _ _); reflexivity.
Defined.

(** The tree is selected and the rock, which is for cycling only, is
    clicked. *)
Lemma click_respects_selection_option_witness :
  exists w',
    WorldEditorScene.pointer_select 3 WorldEditor.kEditing true (Some 2%nat)
      (WorldEditorScene.sample_world WorldEditorScene.sample_scene (Some 0%nat))
    = WorldEditorScene.Returned (w', false)
    /\ WorldEditorScene.entity_cycler_ w' = 2%nat
    /\ (forall o,
          WorldEditorScene.selection_option WorldEditorScene.sample_scene !! 2%nat
          = Some o ->
          WorldEditorScene.click_allowed o = true ->
          WorldEditorScene.selected_entity_ w' = Some 2%nat
          /\ same_scene WorldEditorScene.sample_scene
               (WorldEditorScene.entity_manager_ w'))
    /\ ((forall o,
           WorldEditorScene.selection_option WorldEditorScene.sample_scene !! 2%nat
           = Some o ->
           WorldEditorScene.click_allowed o = false) ->
        w' = WorldEditorScene.set_entity_cycler_ 2
               (WorldEditorScene.sample_world WorldEditorScene.sample_scene
                  (Some 0%nat))).
Proof.
  refine (click_respects_selection_option WorldEditorScene.sample_rank 3
            WorldEditor.kEditing 2%nat
            (WorldEditorScene.sample_world WorldEditorScene.sample_scene (Some 0%nat))
            _ _ _ _).
  - exact sample_forest.
  - exact sample_fuel.
  - reflexivity.
  - intros [_ E]. discriminate E.
Defined.

(** No schema file on disk: nothing is loaded, and the world is saved
    without JSON. *)
Lemma binary_schema_missing_no_json_witness :
  WorldEditorScene.schema_text_
    (WorldEditorScene.LoadSchemaFiles
       (WorldEditorScene.sample_world WorldEditorScene.sample_scene None))
  = EmptyString
  /\ (EmptyString = EmptyString ->
      text_saves
        (WorldEditorScene.output
           (WorldEditorScene.SaveWorld
              (WorldEditorScene.LoadSchemaFiles
                 (WorldEditorScene.sample_world WorldEditorScene.sample_scene None))))
      = []).
Proof.
  refine (binary_schema_missing_no_json
            (WorldEditorScene.sample_world WorldEditorScene.sample_scene None) _).
  reflexivity.
Defined.

(** What [SaveWorld] writes for the sample scene once a text schema is
    loaded: the two source files, each as binary and as JSON, and nothing
    for the marker. *)
Example SaveWorld_sample :
  let w := WorldEditorScene.set_schema_text_ "table T {}"
             (WorldEditorScene.sample_world WorldEditorScene.sample_scene None) in
  binary_saves (WorldEditorScene.output (WorldEditorScene.SaveWorld w))
  = ["extras.bin"; "world.bin"]
  /\ text_saves (WorldEditorScene.output (WorldEditorScene.SaveWorld w))
     = ["extras.json"; "world.json"].
Proof. vm_compute. split; reflexivity. Qed.
